(** * generate-declarations.py: the ctypes declaration generator of rascaline

    A shallow embedding of [python/scripts/generate-declarations.py]: the
    pycparser syntax tree it walks, the [AstVisitor] collector, the raw-text
    scan for [#define] lines, the name resolver [c_type_name], the type
    translator [type_to_ctypes] and the three [generate_*] writers.

    Python values are modelled as follows.
    - [str] is [string]; characters are code points below 256.
    - A raised exception is the [Err] case of [result]; the exception classes
      the script can raise are the constructors of [exn].
    - A [dict] is an association list in insertion order ([dict_set]
      overwrites in place, as Python does).
    - [file.write] appends to the text written so far.
    - [None] where a string or a node is expected is [option]. *)

From Stdlib Require Import Bool Arith List Ascii String Lia.
Import ListNotations.
Local Open Scope list_scope.
Local Open Scope string_scope.

Set Implicit Arguments.

(* ================================================================== *)
(** ** Exceptions *)

Inductive exn : Type :=
| Exception (msg : string)   (* [raise Exception(msg)] *)
| AssertionError             (* a failed [assert] *)
| AttributeError             (* [x.attr] where [x] has no such attribute *)
| IndexError.                (* [l[i]] out of range *)

Inductive result (A : Type) : Type :=
| Ok (a : A)
| Err (e : exn).

Arguments Ok {A} a.
Arguments Err {A} e.

Definition bind {A B : Type} (m : result A) (k : A -> result B) : result B :=
  match m with
  | Ok a => k a
  | Err e => Err e
  end.

Notation "x <- m ;; k" := (bind m (fun x => k))
  (at level 61, m at next level, right associativity).

(** A list comprehension [[f(x) for x in l]] whose body may raise: the
    elements are evaluated left to right and the first exception escapes. *)
Fixpoint mapM {A B : Type} (f : A -> result B) (l : list A) : result (list B) :=
  match l with
  | [] => Ok []
  | x :: l' => y <- f x ;; ys <- mapM f l' ;; Ok (y :: ys)
  end.

(** A [for] loop threading a state through a body that may raise. *)
Fixpoint foldM {A S : Type} (f : S -> A -> result S) (l : list A) (s : S)
  : result S :=
  match l with
  | [] => Ok s
  | x :: l' => s' <- f s x ;; foldM f l' s'
  end.

(* ================================================================== *)
(** ** Python strings *)

(** [sub in s] *)
Fixpoint contains (sub s : string) : bool :=
  prefix sub s ||
  match s with
  | EmptyString => false
  | String _ s' => contains sub s'
  end.

(** [str.isspace] on one character below code point 256. *)
Definition isspace (c : ascii) : bool :=
  let n := nat_of_ascii c in
  ((Nat.leb 9 n && Nat.leb n 13) || (Nat.leb 28 n && Nat.leb n 32)
   || Nat.eqb n 133 || Nat.eqb n 160).

(** [s.split()]: the maximal runs of non-whitespace characters, in order.
    [cur] is the run being read. *)
Fixpoint split_from (cur : string) (s : string) : list string :=
  match s with
  | EmptyString => match cur with EmptyString => [] | _ => [cur] end
  | String c s' =>
      if isspace c then
        match cur with
        | EmptyString => split_from EmptyString s'
        | _ => cur :: split_from EmptyString s'
        end
      else split_from (cur ++ String c EmptyString) s'
  end.

Definition split (s : string) : list string := split_from EmptyString s.

(** [name.startswith(p)] *)
Definition startswith (name p : string) : bool := prefix p name.

(** [l[i]] *)
Definition index {A : Type} (l : list A) (i : nat) : result A :=
  match nth_error l i with
  | Some x => Ok x
  | None => Err IndexError
  end.

(** [sep.join(l)] *)
Definition join (sep : string) (l : list string) : string := concat sep l.

Definition list_string_eqb (l1 l2 : list string) : bool :=
  if list_eq_dec string_dec l1 l2 then true else false.

(* ================================================================== *)
(** ** Python dicts, in insertion order *)

Section Dict.
Variables K V : Type.
Variable K_eqb : K -> K -> bool.

(** [d[k] = v] *)
Fixpoint dict_set (d : list (K * V)) (k : K) (v : V) : list (K * V) :=
  match d with
  | [] => [(k, v)]
  | (k', v') :: d' =>
      if K_eqb k' k then (k, v) :: d' else (k', v') :: dict_set d' k v
  end.

End Dict.

Definition option_string_eqb (a b : option string) : bool :=
  match a, b with
  | Some x, Some y => String.eqb x y
  | None, None => true
  | _, _ => false
  end.

(* ================================================================== *)
(** ** The name resolver *)

Definition c_type_name (name : string) : string :=
  if startswith name "rascal_" then
    (* enums are represented as int *)
    if String.eqb name "rascal_indexes_kind" then "ctypes.c_int"
    else name
  else if startswith name "eqs_" then
    (* equistore types *)
    name
  else if String.eqb name "uintptr_t" then "c_uintptr_t"
  else if String.eqb name "void" then "None"
  else if String.eqb name "int32_t" then "ctypes.c_int32"
  else if String.eqb name "uint32_t" then "ctypes.c_uint32"
  else if String.eqb name "int64_t" then "ctypes.c_int64"
  else if String.eqb name "uint64_t" then "ctypes.c_uint64"
  else "ctypes.c_" ++ name.

(** [c_type_name(name)] where [name] may be [None] (the tag of an anonymous
    struct or enum): [None.startswith] raises. *)
Definition c_type_name_dyn (name : option string) : result string :=
  match name with
  | Some n => Ok (c_type_name n)
  | None => Err AttributeError
  end.

(* ================================================================== *)
(** ** The pycparser syntax tree

    The node classes of [pycparser.c_ast] that a parsed header is made of.
    [FuncDecl.args] is a [ParamList] or [None] and [Enum.values] an
    [EnumeratorList] or [None]; both are kept as optional lists.
    Expressions (array dimensions, enumerator values, bit-field widths) are
    a type of their own: no expression node is a declaration. *)

Module c_ast.

Inductive expr : Type :=
| Constant (type value : string)
| ID (name : string)
| UnaryOp (op : string) (e : expr)
| BinaryOp (op : string) (left right : expr).

Record Enumerator : Type :=
  { name : string; value : option expr }.

#[warnings="-register-all"]
Inductive node : Type :=
| PtrDecl (quals : list string) (type : node)
| TypeDecl (declname : option string) (quals : list string) (type : node)
| IdentifierType (names : list string)
| ArrayDecl (type : node) (dim : option expr)
| FuncDecl (args : option (list node)) (type : node)
| Struct (name : option string) (decls : option (list node))
| Union (name : option string) (decls : option (list node))
| Enum (name : option string) (values : option (list Enumerator))
| Decl (name : option string) (type : node) (bitsize : option expr)
| Typename (name : option string) (type : node)
| Typedef (name : string) (type : node)
| EllipsisParam
| FuncDef (decl : node) (param_decls : option (list node)) (body : node)
| Compound (block_items : option (list node))
| Pragma (text : string)
| FileAST (ext : list node).

(** Structural induction, through the lists of children. *)
Section Induction.
Variable P : node -> Prop.

Definition P_list (l : list node) : Prop := Forall P l.
Definition P_opt (o : option (list node)) : Prop :=
  match o with Some l => Forall P l | None => True end.

Hypothesis HPtrDecl : forall q t, P t -> P (PtrDecl q t).
Hypothesis HTypeDecl : forall d q t, P t -> P (TypeDecl d q t).
Hypothesis HIdentifierType : forall ns, P (IdentifierType ns).
Hypothesis HArrayDecl : forall t d, P t -> P (ArrayDecl t d).
Hypothesis HFuncDecl : forall a t, P_opt a -> P t -> P (FuncDecl a t).
Hypothesis HStruct : forall n ds, P_opt ds -> P (Struct n ds).
Hypothesis HUnion : forall n ds, P_opt ds -> P (Union n ds).
Hypothesis HEnum : forall n vs, P (Enum n vs).
Hypothesis HDecl : forall n t b, P t -> P (Decl n t b).
Hypothesis HTypename : forall n t, P t -> P (Typename n t).
Hypothesis HTypedef : forall n t, P t -> P (Typedef n t).
Hypothesis HEllipsisParam : P EllipsisParam.
Hypothesis HFuncDef :
  forall d ps b, P d -> P_opt ps -> P b -> P (FuncDef d ps b).
Hypothesis HCompound : forall bs, P_opt bs -> P (Compound bs).
Hypothesis HPragma : forall s, P (Pragma s).
Hypothesis HFileAST : forall ext, P_list ext -> P (FileAST ext).

Fixpoint node_ind' (n : node) : P n :=
  let all := fix all (l : list node) : Forall P l :=
    match l with
    | [] => @Forall_nil _ P
    | x :: l' => @Forall_cons _ P x l' (node_ind' x) (all l')
    end in
  let all_opt := fun (o : option (list node)) =>
    match o return P_opt o with
    | Some l => all l
    | None => I
    end in
  match n with
  | PtrDecl q t => @HPtrDecl q t (node_ind' t)
  | TypeDecl d q t => @HTypeDecl d q t (node_ind' t)
  | IdentifierType ns => @HIdentifierType ns
  | ArrayDecl t d => @HArrayDecl t d (node_ind' t)
  | FuncDecl a t => @HFuncDecl a t (all_opt a) (node_ind' t)
  | Struct nm ds => @HStruct nm ds (all_opt ds)
  | Union nm ds => @HUnion nm ds (all_opt ds)
  | Enum nm vs => @HEnum nm vs
  | Decl nm t b => @HDecl nm t b (node_ind' t)
  | Typename nm t => @HTypename nm t (node_ind' t)
  | Typedef nm t => @HTypedef nm t (node_ind' t)
  | EllipsisParam => HEllipsisParam
  | FuncDef d ps b =>
      @HFuncDef d ps b (node_ind' d) (all_opt ps) (node_ind' b)
  | Compound bs => @HCompound bs (all_opt bs)
  | Pragma s => @HPragma s
  | FileAST ext => @HFileAST ext (all ext)
  end.
End Induction.

End c_ast.

(** *** Attribute access

    [x.attr] raises [AttributeError] on a node whose class has no such
    attribute. *)

(** [node.type] *)
Definition attr_type (n : c_ast.node) : result c_ast.node :=
  match n with
  | c_ast.PtrDecl _ t | c_ast.TypeDecl _ _ t | c_ast.ArrayDecl t _
  | c_ast.FuncDecl _ t | c_ast.Decl _ t _ | c_ast.Typename _ t
  | c_ast.Typedef _ t => Ok t
  | _ => Err AttributeError
  end.

(** [node.name] *)
Definition attr_name (n : c_ast.node) : result (option string) :=
  match n with
  | c_ast.Struct nm _ | c_ast.Union nm _ | c_ast.Enum nm _
  | c_ast.Decl nm _ _ | c_ast.Typename nm _ => Ok nm
  | c_ast.Typedef nm _ => Ok (Some nm)
  | _ => Err AttributeError
  end.

(** [node.args.params]: only a [FuncDecl] has [args], and [None] has no
    [params]. *)
Definition attr_args_params (n : c_ast.node) : result (list c_ast.node) :=
  match n with
  | c_ast.FuncDecl (Some ps) _ => Ok ps
  | _ => Err AttributeError
  end.

(** A method call [name.startswith(...)] needs [name] to be a string:
    [None] has no such method. *)
Definition as_str (name : option string) : result string :=
  match name with
  | Some n => Ok n
  | None => Err AttributeError
  end.


(* ================================================================== *)
(** ** The type translator *)

Definition nl : string := String (ascii_of_nat 10) EmptyString.
Definition dq : string := String (ascii_of_nat 34) EmptyString.

(** The name of the type a [TypeDecl] declares. The tag of an anonymous
    struct or enum is [None]. *)
Definition _typedecl_name (type : c_ast.node) : result (option string) :=
  match type with
  | c_ast.TypeDecl _ _ inner =>
      match inner with
      | c_ast.Struct name _ => Ok name
      | c_ast.Enum name _ => Ok name
      | c_ast.IdentifierType names =>
          if (List.length names =? 1)%nat
          then n <- index names 0 ;; Ok (Some n)
          else Err AssertionError
      | _ => Err AttributeError          (* no attribute [names] *)
      end
  | _ => Err AssertionError
  end.

(** [name == s], where [name] may be [None] *)
Definition name_is (name : option string) (s : string) : bool :=
  option_string_eqb name (Some s).

Definition unknown_type {A : Type} : result A :=
  Err (Exception "Unknown type").

(** The text of a function type, from the translations of its return type
    and of its parameters. The return type is translated first. *)
Definition cfunctype (restype : result string) (args : result (list string))
  : result string :=
  restype <- restype ;;
  args <- args ;;
  Ok ("CFUNCTYPE(" ++ restype ++ ", " ++ join ", " args ++ ")").

Fixpoint type_to_ctypes (type : c_ast.node) (ndpointer : bool) {struct type}
  : result string :=
  match type with
  | c_ast.PtrDecl _ (c_ast.PtrDecl _ pointee) =>
      match pointee with
      | c_ast.TypeDecl _ _ _ =>
          name <- _typedecl_name pointee ;;
          if name_is name "char" then Ok "POINTER(ctypes.c_char_p)"
          else
            name <- c_type_name_dyn name ;;
            if ndpointer
            then Ok ("POINTER(ndpointer(" ++ name ++ ", flags='C_CONTIGUOUS'))")
            else Ok ("POINTER(POINTER(" ++ name ++ "))")
      | _ => unknown_type
      end
  | c_ast.PtrDecl _ (c_ast.TypeDecl _ _ _ as pointee) =>
      name <- _typedecl_name pointee ;;
      if name_is name "void" then Ok "ctypes.c_void_p"
      else if name_is name "char" then Ok "ctypes.c_char_p"
      else
        name <- c_type_name_dyn name ;;
        Ok ("POINTER(" ++ name ++ ")")
  | c_ast.PtrDecl _ (c_ast.FuncDecl args restype)
  | c_ast.FuncDecl args restype =>
      (* funcdecl_to_ctypes *)
      cfunctype
        (type_to_ctypes restype ndpointer)
        match args with
        | None => Err AttributeError
        | Some params =>
            (fix params_to_ctypes (ps : list c_ast.node)
               : result (list string) :=
               match ps with
               | [] => Ok []
               | t :: ps' =>
                   s <- match t with
                        | c_ast.PtrDecl _ ty | c_ast.TypeDecl _ _ ty
                        | c_ast.ArrayDecl ty _ | c_ast.FuncDecl _ ty
                        | c_ast.Decl _ ty _ | c_ast.Typename _ ty
                        | c_ast.Typedef _ ty => type_to_ctypes ty ndpointer
                        | _ => Err AttributeError
                        end ;;
                   ss <- params_to_ctypes ps' ;;
                   Ok (s :: ss)
               end) params
        end
  | c_ast.PtrDecl _ _ => unknown_type
  (* not a pointer *)
  | c_ast.TypeDecl _ _ _ =>
      name <- _typedecl_name type ;;
      c_type_name_dyn name
  | c_ast.IdentifierType names =>
      name <- index names 0 ;;
      Ok (c_type_name name)
  | c_ast.ArrayDecl elem dim =>
      match dim with
      | Some (c_ast.Constant _ size) =>
          elem <- type_to_ctypes elem false ;;
          Ok (elem ++ " * " ++ size)
      | _ => Err (Exception "dynamically sized arrays are not supported")
      end
  | _ => unknown_type
  end.

(** [funcdecl_to_ctypes], as a function of its own; [type_to_ctypes] on a
    function type is this function ([type_to_ctypes_FuncDecl] below). *)
Definition funcdecl_to_ctypes (type : c_ast.node) (ndpointer : bool)
  : result string :=
  cfunctype
    (ty <- attr_type type ;; type_to_ctypes ty ndpointer)
    (params <- attr_args_params type ;;
     mapM (fun t => ty <- attr_type t ;; type_to_ctypes ty ndpointer) params).

(* ================================================================== *)
(** ** The collected declarations *)

Module Function.
Record t : Type :=
  { name : string; restype : c_ast.node; args : list c_ast.node }.

Definition add_arg (self : t) (arg : c_ast.node) : t :=
  {| name := name self; restype := restype self;
     args := (args self ++ [arg])%list |}.
End Function.

Module Struct.
Record t : Type :=
  { name : string; members : list (option string * c_ast.node) }.

Definition add_member (self : t) (n : option string) (type : c_ast.node)
  : t :=
  {| name := name self;
     members := dict_set option_string_eqb (members self) n type |}.
End Struct.

Module Enum.
Record t : Type :=
  { name : string; values : list (string * string) }.

Definition add_value (self : t) (n : string) (value : string) : t :=
  {| name := name self;
     values := dict_set String.eqb (values self) n value |}.
End Enum.

Record AstVisitor : Type :=
  { functions : list Function.t;
    enums : list Enum.t;
    structs : list Struct.t;
    types : list (string * c_ast.node);
    defines : list (string * string) }.

(** [AstVisitor()] *)
Definition AstVisitor_init : AstVisitor :=
  {| functions := []; enums := []; structs := []; types := [];
     defines := [] |}.

Definition set_functions (self : AstVisitor) (l : list Function.t) :=
  {| functions := l; enums := enums self; structs := structs self;
     types := types self; defines := defines self |}.
Definition set_enums (self : AstVisitor) (l : list Enum.t) :=
  {| functions := functions self; enums := l; structs := structs self;
     types := types self; defines := defines self |}.
Definition set_structs (self : AstVisitor) (l : list Struct.t) :=
  {| functions := functions self; enums := enums self; structs := l;
     types := types self; defines := defines self |}.
Definition set_types (self : AstVisitor) (d : list (string * c_ast.node)) :=
  {| functions := functions self; enums := enums self;
     structs := structs self; types := d; defines := defines self |}.
Definition set_defines (self : AstVisitor) (d : list (string * string)) :=
  {| functions := functions self; enums := enums self;
     structs := structs self; types := types self; defines := d |}.

(* ================================================================== *)
(** ** The collector *)

Definition visit_Decl (self : AstVisitor) (node : c_ast.node)
  : result AstVisitor :=
  name <- attr_name node ;;
  name <- as_str name ;;
  if negb (startswith name "rascal_") then Ok self
  else
    type <- attr_type node ;;
    restype <- attr_type type ;;
    let function :=
      {| Function.name := name; Function.restype := restype;
         Function.args := [] |} in
    params <- attr_args_params type ;;
    function <- foldM (fun f parameter =>
                         arg <- attr_type parameter ;;
                         Ok (Function.add_arg f arg))
                      params function ;;
    Ok (set_functions self (functions self ++ [function])%list).

(** [enumerator.value.value]: only a [Constant] has a [value]. *)
Definition enumerator_value_value (e : c_ast.Enumerator) : result string :=
  match c_ast.value e with
  | Some (c_ast.Constant _ v) => Ok v
  | _ => Err AttributeError
  end.

(** [node.children()] of a [Struct] *)
Definition Struct_children (decls : option (list c_ast.node))
  : list c_ast.node :=
  match decls with Some l => l | None => [] end.

Definition visit_Typedef (self : AstVisitor) (node : c_ast.node)
  : result AstVisitor :=
  name <- attr_name node ;;
  name <- as_str name ;;
  if negb (startswith name "rascal_") then Ok self
  else
    type <- attr_type node ;;
    underlying <- attr_type type ;;
    match underlying with
    | c_ast.Enum _ values =>
        (* Get name and value for enum *)
        let enum := {| Enum.name := name; Enum.values := [] |} in
        enumerators <- match values with
                       | Some l => Ok l
                       | None => Err AttributeError
                       end ;;
        enum <- foldM (fun e enumerator =>
                         value <- enumerator_value_value enumerator ;;
                         Ok (Enum.add_value e (c_ast.name enumerator) value))
                      enumerators enum ;;
        Ok (set_enums self (enums self ++ [enum])%list)
    | c_ast.Struct _ decls =>
        let struct := {| Struct.name := name; Struct.members := [] |} in
        struct <- foldM (fun s member =>
                           n <- attr_name member ;;
                           ty <- attr_type member ;;
                           Ok (Struct.add_member s n ty))
                        (Struct_children decls) struct ;;
        Ok (set_structs self (structs self ++ [struct])%list)
    | _ =>
        Ok (set_types self
              (dict_set String.eqb (types self) name underlying))
    end.

(** [NodeVisitor.visit]: a [Decl] goes to [visit_Decl], a [Typedef] to
    [visit_Typedef], neither of which descends; every other node is walked
    by [generic_visit], which visits its children in the order
    [children()] lists them (expressions hold no declaration). *)
Fixpoint visit (self : AstVisitor) (node : c_ast.node) {struct node}
  : result AstVisitor :=
  let visit_all :=
    fix visit_all (self : AstVisitor) (l : list c_ast.node)
      : result AstVisitor :=
      match l with
      | [] => Ok self
      | c :: l' => self <- visit self c ;; visit_all self l'
      end in
  let visit_opt := fun (self : AstVisitor) (o : option (list c_ast.node)) =>
    match o with Some l => visit_all self l | None => Ok self end in
  match node with
  | c_ast.Decl _ _ _ => visit_Decl self node
  | c_ast.Typedef _ _ => visit_Typedef self node
  | c_ast.PtrDecl _ t | c_ast.TypeDecl _ _ t | c_ast.ArrayDecl t _
  | c_ast.Typename _ t => visit self t
  | c_ast.FuncDecl a t => self <- visit_opt self a ;; visit self t
  | c_ast.Struct _ ds | c_ast.Union _ ds | c_ast.Compound ds =>
      visit_opt self ds
  | c_ast.FuncDef d ps b =>
      self <- visit self d ;; self <- visit self b ;; visit_opt self ps
  | c_ast.FileAST ext => visit_all self ext
  | c_ast.IdentifierType _ | c_ast.Enum _ _ | c_ast.EllipsisParam
  | c_ast.Pragma _ => Ok self
  end.

(** One iteration of the loop over the lines of the header. *)
Definition parse_line (visitor : AstVisitor) (line : string)
  : result AstVisitor :=
  if contains "#define" line then
    let split := split line in
    name <- index split 1 ;;
    if String.eqb name "RASCALINE_H" then Ok visitor   (* continue *)
    else
      value <- index split 2 ;;
      Ok (set_defines visitor (dict_set String.eqb (defines visitor) name value))
  else Ok visitor.

(** [parse]: [ast] is what [parse_file] returns for the header, [file] the
    lines of the header as iterating over the open file yields them. *)
Definition parse (ast : c_ast.node) (file : list string) : result AstVisitor :=
  visitor <- visit AstVisitor_init ast ;;
  foldM parse_line file visitor.

(* ================================================================== *)
(** ** Writing the generated module

    A computation that writes to the open output file and may raise: it takes
    the text written so far and returns the text written when it stops,
    together with its value or the exception that stopped it. *)

Definition W (A : Type) : Type := string -> string * result A.

Definition write (s : string) : W unit := fun file => (file ++ s, Ok tt).

Definition eval {A : Type} (r : result A) : W A := fun file => (file, r).

Definition bindW {A B : Type} (m : W A) (k : A -> W B) : W B :=
  fun file =>
    match m file with
    | (file', Ok a) => k a file'
    | (file', Err e) => (file', Err e)
    end.

Notation "x <~ m ;; k" := (bindW m (fun x => k))
  (at level 61, m at next level, right associativity).
Notation "m ;;; k" := (bindW m (fun _ => k))
  (at level 61, right associativity).

Fixpoint forW {A : Type} (l : list A) (body : A -> W unit) : W unit :=
  match l with
  | [] => eval (Ok tt)
  | x :: l' => body x ;;; forW l' body
  end.

(** [f"{name}"] of a name that may be [None] *)
Definition fmt (name : option string) : string :=
  match name with Some s => s | None => "None" end.

Definition generate_enums (enums : list Enum.t) : W unit :=
  forW enums (fun enum =>
    write (nl ++ nl ++ "class " ++ Enum.name enum ++ "(enum.Enum):" ++ nl) ;;;
    forW (Enum.values enum) (fun '(name, value) =>
      write ("    " ++ name ++ " = " ++ value ++ nl))).

Definition generate_structs (structs : list Struct.t) : W unit :=
  forW structs (fun struct =>
    write (nl ++ nl ++ "class " ++ Struct.name struct
              ++ "(ctypes.Structure):" ++ nl) ;;;
    if (List.length (Struct.members struct) =? 0)%nat then
      write ("    pass" ++ nl)               (* continue *)
    else
      write ("    _fields_ = [" ++ nl) ;;;
      forW (Struct.members struct) (fun '(name, type) =>
        ty <~ eval (type_to_ctypes type true) ;;
        write ("        (" ++ dq ++ fmt name ++ dq ++ ", " ++ ty ++ ")," ++ nl)) ;;;
      write ("    ]" ++ nl)).

(** The [argtypes] list of a function. *)
Definition function_argtypes (function : Function.t) : result (list string) :=
  args <- mapM (fun arg => type_to_ctypes arg false) (Function.args function) ;;
  (* functions taking void parameter in C don't have any parameter *)
  if list_string_eqb args ["None"] then Ok [] else Ok args.

(** The [restype] of a function. *)
Definition function_restype (function : Function.t) : result string :=
  restype <- type_to_ctypes (Function.restype function) false ;;
  if String.eqb restype "rascal_status_t" then Ok "_check_rascal_status_t"
  else Ok restype.

Definition generate_functions (functions : list Function.t) : W unit :=
  write (nl ++ nl ++ "def setup_functions(lib):" ++ nl) ;;;
  write ("    from .status import _check_rascal_status_t" ++ nl) ;;;
  forW functions (fun function =>
    write (nl ++ "    lib." ++ Function.name function ++ ".argtypes = ["
              ++ nl ++ "        ") ;;;
    args <~ eval (function_argtypes function) ;;
    write (join ("," ++ nl ++ "        ") args) ;;;
    write (nl ++ "    ]" ++ nl) ;;;
    restype <~ eval (function_restype function) ;;
    write ("    lib." ++ Function.name function ++ ".restype = " ++ restype
              ++ nl)).

Definition prelude : string :=
  join nl
    [ "'''Automatically-generated file, do not edit!!!'''";
      "# flake8: noqa";
      "";
      "import ctypes";
      "import enum";
      "import platform";
      "from ctypes import CFUNCTYPE, POINTER";
      "";
      "from equistore.core._c_api import eqs_labels_t, eqs_tensormap_t";
      "from numpy.ctypeslib import ndpointer";
      "";
      "";
      "arch = platform.architecture()[0]";
      "if arch == " ++ dq ++ "32bit" ++ dq ++ ":";
      "    c_uintptr_t = ctypes.c_uint32";
      "elif arch == " ++ dq ++ "64bit" ++ dq ++ ":";
      "    c_uintptr_t = ctypes.c_uint64";
      "";
      "" ].

(** What is written once the header is parsed and the output file open. *)
Definition write_declarations (data : AstVisitor) : W unit :=
  write prelude ;;;
  forW (defines data) (fun '(name, value) =>
    write (name ++ " = " ++ value ++ nl)) ;;;
  write (nl ++ nl) ;;;
  forW (types data) (fun '(name, c_type) =>
    ty <~ eval (type_to_ctypes c_type false) ;;
    write (name ++ " = " ++ ty ++ nl)) ;;;
  generate_enums (enums data) ;;;
  generate_structs (structs data) ;;;
  generate_functions (functions data).

(** [generate_declarations]: the text of the output file, if the run got as
    far as opening it, and how the run ended. *)
Definition generate_declarations (ast : c_ast.node) (header : list string)
  : option string * result unit :=
  match parse ast header with
  | Err e => (None, Err e)
  | Ok data =>
      let '(file, r) := write_declarations data EmptyString in
      (Some file, r)
  end.

(* ================================================================== *)
(** ** A run on a small header

    [[
    #ifndef RASCALINE_H
    #define RASCALINE_H
    #define RASCAL_SUCCESS 0
    typedef int32_t rascal_status_t;
    typedef enum rascal_indexes_kind {
      RASCAL_INDEXES_FEATURES = 0,
      RASCAL_INDEXES_SAMPLES = 1,
    } rascal_indexes_kind;
    typedef struct rascal_calculator_t rascal_calculator_t;
    typedef struct rascal_indexes_t {
      const char *const *names;
      const int32_t *values;
      uintptr_t size[2];
    } rascal_indexes_t;
    const char *rascal_last_error(void);
    rascal_status_t rascal_calculator_free(rascal_calculator_t *calculator);
    #endif
    ]] *)

Definition tdecl (declname : string) (quals : list string) (name : string)
  : c_ast.node :=
  c_ast.TypeDecl (Some declname) quals (c_ast.IdentifierType [name]).

Definition small_header_ast : c_ast.node :=
  c_ast.FileAST
    [ c_ast.Typedef "int32_t" (tdecl "int32_t" [] "int");
      c_ast.Typedef "rascal_status_t" (tdecl "rascal_status_t" [] "int32_t");
      c_ast.Typedef "rascal_indexes_kind"
        (c_ast.TypeDecl (Some "rascal_indexes_kind") []
           (c_ast.Enum (Some "rascal_indexes_kind")
              (Some [ {| c_ast.name := "RASCAL_INDEXES_FEATURES";
                         c_ast.value := Some (c_ast.Constant "int" "0") |};
                      {| c_ast.name := "RASCAL_INDEXES_SAMPLES";
                         c_ast.value := Some (c_ast.Constant "int" "1") |} ])));
      c_ast.Typedef "rascal_calculator_t"
        (c_ast.TypeDecl (Some "rascal_calculator_t") []
           (c_ast.Struct (Some "rascal_calculator_t") None));
      c_ast.Typedef "rascal_indexes_t"
        (c_ast.TypeDecl (Some "rascal_indexes_t") []
           (c_ast.Struct (Some "rascal_indexes_t")
              (Some [ c_ast.Decl (Some "names")
                        (c_ast.PtrDecl []
                           (c_ast.PtrDecl ["const"]
                              (tdecl "names" ["const"] "char")))
                        None;
                      c_ast.Decl (Some "values")
                        (c_ast.PtrDecl [] (tdecl "values" ["const"] "int32_t"))
                        None;
                      c_ast.Decl (Some "size")
                        (c_ast.ArrayDecl (tdecl "size" [] "uintptr_t")
                           (Some (c_ast.Constant "int" "2")))
                        None ])));
      c_ast.Decl (Some "rascal_last_error")
        (c_ast.FuncDecl
           (Some [c_ast.Typename None
                    (c_ast.TypeDecl None [] (c_ast.IdentifierType ["void"]))])
           (c_ast.PtrDecl [] (tdecl "rascal_last_error" ["const"] "char")))
        None;
      c_ast.Decl (Some "rascal_calculator_free")
        (c_ast.FuncDecl
           (Some [c_ast.Decl (Some "calculator")
                    (c_ast.PtrDecl []
                       (tdecl "calculator" [] "rascal_calculator_t"))
                    None])
           (tdecl "rascal_calculator_free" [] "rascal_status_t"))
        None ].

Definition small_header_lines : list string :=
  [ "#ifndef RASCALINE_H" ++ nl;
    "#define RASCALINE_H" ++ nl;
    "#define RASCAL_SUCCESS 0" ++ nl;
    "typedef int32_t rascal_status_t;" ++ nl;
    "#endif" ++ nl ].

Definition small_header_module : string :=
  prelude ++
  join nl
    [ "RASCAL_SUCCESS = 0";
      "";
      "";
      "rascal_status_t = ctypes.c_int32";
      "";
      "";
      "class rascal_indexes_kind(enum.Enum):";
      "    RASCAL_INDEXES_FEATURES = 0";
      "    RASCAL_INDEXES_SAMPLES = 1";
      "";
      "";
      "class rascal_calculator_t(ctypes.Structure):";
      "    pass";
      "";
      "";
      "class rascal_indexes_t(ctypes.Structure):";
      "    _fields_ = [";
      "        (" ++ dq ++ "names" ++ dq ++ ", POINTER(ctypes.c_char_p)),";
      "        (" ++ dq ++ "values" ++ dq ++ ", POINTER(ctypes.c_int32)),";
      "        (" ++ dq ++ "size" ++ dq ++ ", c_uintptr_t * 2),";
      "    ]";
      "";
      "";
      "def setup_functions(lib):";
      "    from .status import _check_rascal_status_t";
      "";
      "    lib.rascal_last_error.argtypes = [";
      "        ";
      "    ]";
      "    lib.rascal_last_error.restype = ctypes.c_char_p";
      "";
      "    lib.rascal_calculator_free.argtypes = [";
      "        POINTER(rascal_calculator_t)";
      "    ]";
      "    lib.rascal_calculator_free.restype = _check_rascal_status_t";
      "" ].

(* ================================================================== *)
(** ** Vocabulary of the properties *)

(** The first character of [s] is one of [cs]. *)
Definition head_in (cs : list ascii) (s : string) : bool :=
  match s with
  | String c _ => existsb (Ascii.eqb c) cs
  | EmptyString => false
  end.

(** The C type [void], as a parameter or return type. *)
Definition is_void (type : c_ast.node) : bool :=
  match type with
  | c_ast.TypeDecl _ _ (c_ast.IdentifierType [n]) => String.eqb n "void"
  | _ => false
  end.

(** The name the translator reads off [type] is [void]. In a parsed header
    this is the type [void] only: [void] is a reserved word, no struct or
    enum has it as its tag. *)
Definition names_void (type : c_ast.node) : bool :=
  match type with
  | c_ast.TypeDecl _ _ (c_ast.Struct (Some n) _)
  | c_ast.TypeDecl _ _ (c_ast.Enum (Some n) _)
  | c_ast.TypeDecl _ _ (c_ast.IdentifierType [n])
  | c_ast.IdentifierType (n :: _) => String.eqb n "void"
  | _ => false
  end.

(** *** The shapes of C types

    [in_grammar]: the types the translator is written for. A type name is
    the tag of a struct or of an enum, or one identifier; a parameter is a
    [Decl] or, when it has no name, a [Typename]. *)

Definition named (inner : c_ast.node) : bool :=
  match inner with
  | c_ast.Struct (Some _) _ | c_ast.Enum (Some _) _
  | c_ast.IdentifierType [_] => true
  | _ => false
  end.

Fixpoint in_grammar (type : c_ast.node) : bool :=
  match type with
  | c_ast.PtrDecl _ (c_ast.PtrDecl _ (c_ast.TypeDecl _ _ inner))
  | c_ast.PtrDecl _ (c_ast.TypeDecl _ _ inner)
  | c_ast.TypeDecl _ _ inner => named inner
  | c_ast.IdentifierType [_] => true
  | c_ast.PtrDecl _ (c_ast.FuncDecl args restype)
  | c_ast.FuncDecl args restype =>
      in_grammar restype &&
      match args with
      | None => false
      | Some params =>
          (fix all (ps : list c_ast.node) : bool :=
             match ps with
             | [] => true
             | p :: ps' =>
                 match p with
                 | c_ast.Decl _ ty _ | c_ast.Typename _ ty => in_grammar ty
                 | _ => false
                 end && all ps'
             end) params
      end
  | c_ast.ArrayDecl elem (Some (c_ast.Constant _ _)) => in_grammar elem
  | _ => false
  end.

(** A parameter of a function type in the grammar. *)
Definition param_in_grammar (p : c_ast.node) : bool :=
  match p with
  | c_ast.Decl _ ty _ | c_ast.Typename _ ty => in_grammar ty
  | _ => false
  end.

(** A shape none of the branches of [type_to_ctypes] tests for: a pointer to
    pointer to anything but a [TypeDecl] (a third pointer, a function, an
    array), a pointer to an array, and every node that is not a [PtrDecl],
    a [TypeDecl], an [IdentifierType], an [ArrayDecl] or a [FuncDecl]. *)
Definition unrecognised (type : c_ast.node) : bool :=
  match type with
  | c_ast.PtrDecl _ (c_ast.PtrDecl _ (c_ast.TypeDecl _ _ _)) => false
  | c_ast.PtrDecl _ (c_ast.PtrDecl _ _) => true
  | c_ast.PtrDecl _ (c_ast.TypeDecl _ _ _)
  | c_ast.PtrDecl _ (c_ast.FuncDecl _ _) => false
  | c_ast.PtrDecl _ _ => true
  | c_ast.TypeDecl _ _ _ | c_ast.IdentifierType _ | c_ast.ArrayDecl _ _
  | c_ast.FuncDecl _ _ => false
  | _ => true
  end.

(** An array whose dimension is not a literal, or is left out. *)
Definition dynamic_array (type : c_ast.node) : bool :=
  match type with
  | c_ast.ArrayDecl _ (Some (c_ast.Constant _ _)) => false
  | c_ast.ArrayDecl _ _ => true
  | _ => false
  end.

(** A declared type, bare or under one or two pointers, whose name is not
    one identifier ([unsigned int], [long long]). *)
Definition several_words (type : c_ast.node) : bool :=
  match type with
  | c_ast.PtrDecl _ (c_ast.PtrDecl _ (c_ast.TypeDecl _ _ (c_ast.IdentifierType names)))
  | c_ast.PtrDecl _ (c_ast.TypeDecl _ _ (c_ast.IdentifierType names))
  | c_ast.TypeDecl _ _ (c_ast.IdentifierType names) =>
      negb (List.length names =? 1)%nat
  | _ => false
  end.

(** The outcome the spec allows: a translation, or the unsupported-type
    error. *)
Definition translated_or_unsupported (r : result string) : Prop :=
  (exists s, r = Ok s) \/ (exists msg, r = Err (Exception msg)).

(** *** The shapes the collector reads

    What [visit_Decl] and [visit_Typedef] read off a declaration they
    collect, as tests on the declaration. *)

(** [node.type] exists. *)
Definition has_type (node : c_ast.node) : bool :=
  match attr_type node with Ok _ => true | Err _ => false end.

(** [node.name] exists. *)
Definition has_name (node : c_ast.node) : bool :=
  match attr_name node with Ok _ => true | Err _ => false end.

(** The value of the enumerator is a literal. *)
Definition holds_literal (e : c_ast.Enumerator) : bool :=
  match c_ast.value e with
  | Some (c_ast.Constant _ _) => true
  | _ => false
  end.

(** The type of a declaration is a function type with a parameter list,
    every entry of which has a type. *)
Definition reads_Decl (type : c_ast.node) : bool :=
  match type with
  | c_ast.FuncDecl (Some params) _ => forallb has_type params
  | _ => false
  end.

(** The type of a typedef has a type under it, which is an enum with a
    list of enumerators that all hold a literal, a struct whose members all
    have a name and a type, or anything else. *)
Definition reads_Typedef (type : c_ast.node) : bool :=
  match attr_type type with
  | Err _ => false
  | Ok (c_ast.Enum _ values) =>
      match values with
      | Some enumerators => forallb holds_literal enumerators
      | None => false
      end
  | Ok (c_ast.Struct _ decls) =>
      forallb (fun member => has_name member && has_type member)
        (Struct_children decls)
  | Ok _ => true
  end.

(* ================================================================== *)
(** ** Vocabulary of the further properties *)

(** No whitespace in [s]. *)
Fixpoint no_space (s : string) : bool :=
  match s with
  | EmptyString => true
  | String c s' => negb (isspace c) && no_space s'
  end.

(** A token: not empty, and no whitespace in it. *)
Definition is_token (s : string) : bool :=
  match s with
  | EmptyString => false
  | String _ _ => no_space s
  end.

(** [l'] is [l] with more at its end. *)
Definition extends {A : Type} (l l' : list A) : Prop :=
  exists more, l' = (l ++ more)%list.

(** The visitor [self'] holds what [self] holds, in the same order, and
    possibly more after it; an alias may have been given a new type. *)
Definition grows (self self' : AstVisitor) : Prop :=
  extends (functions self) (functions self') /\
  extends (enums self) (enums self') /\
  extends (structs self) (structs self') /\
  extends (map fst (types self)) (map fst (types self')) /\
  defines self' = defines self.

(** What each recorded macro constant is: a pair of tokens, the second and
    third of a line that holds [#define], not named as the guard. *)
Definition recorded_from (file : list string) (entry : string * string) : Prop :=
  exists line,
    In line file /\ contains "#define" line = true /\
    nth_error (split line) 1 = Some (fst entry) /\
    nth_error (split line) 2 = Some (snd entry) /\
    fst entry <> "RASCALINE_H" /\
    is_token (fst entry) = true /\ is_token (snd entry) = true.

(** The declaration of a collected function, its parameters unnamed. *)
Definition declaration (function : Function.t) : c_ast.node :=
  c_ast.Decl (Some (Function.name function))
    (c_ast.FuncDecl
       (Some (map (fun arg => c_ast.Typename None arg) (Function.args function)))
       (Function.restype function))
    None.

(** What the loop of [visit_Typedef] reads off a member of a struct. *)
Definition member_field (member : c_ast.node)
  : result (option string * c_ast.node) :=
  n <- attr_name member ;; ty <- attr_type member ;; Ok (n, ty).

(** A [Struct] or an [Enum] node, the two [visit_Typedef] tests for. *)
Definition is_tagged (node : c_ast.node) : bool :=
  match node with
  | c_ast.Struct _ _ | c_ast.Enum _ _ => true
  | _ => false
  end.

(** Two runs end the same way: both return, or both raise the same
    exception. *)
Definition same_outcome {A B : Type} (r1 : result A) (r2 : result B) : Prop :=
  match r1, r2 with
  | Ok _, Ok _ => True
  | Err e1, Err e2 => e1 = e2
  | _, _ => False
  end.

(** [type] without its qualifiers, without the names its declarators
    declare, and, for the parameters of a function type, without their
    names. *)
Fixpoint unqualified (type : c_ast.node) : c_ast.node :=
  match type with
  | c_ast.PtrDecl _ t => c_ast.PtrDecl [] (unqualified t)
  | c_ast.TypeDecl _ _ t => c_ast.TypeDecl None [] t
  | c_ast.ArrayDecl t dim => c_ast.ArrayDecl (unqualified t) dim
  | c_ast.FuncDecl args t =>
      c_ast.FuncDecl
        match args with
        | None => None
        | Some params =>
            Some ((fix each (ps : list c_ast.node) : list c_ast.node :=
                     match ps with
                     | [] => []
                     | p :: ps' =>
                         match p with
                         | c_ast.Decl _ ty _ =>
                             c_ast.Decl None (unqualified ty) None
                         | c_ast.Typename _ ty =>
                             c_ast.Typename None (unqualified ty)
                         | _ => p
                         end :: each ps'
                     end) params)
        end
        (unqualified t)
  | _ => type
  end.

(** A parameter without its name, its type unqualified. *)
Definition unqualified_param (p : c_ast.node) : c_ast.node :=
  match p with
  | c_ast.Decl _ ty _ => c_ast.Decl None (unqualified ty) None
  | c_ast.Typename _ ty => c_ast.Typename None (unqualified ty)
  | _ => p
  end.

(** A writer that only appends: what it writes and how it ends do not
    depend on the text already in the file. *)
Definition appends {A : Type} (m : W A) : Prop :=
  forall file, m file = (file ++ fst (m EmptyString), snd (m EmptyString)).

(** How a loop ends whose body ends as [f] says: as the first [f x] that
    raises, if any. *)
Definition all_ok {A B : Type} (f : A -> result B) (l : list A) : result unit :=
  _ <- mapM f l ;; Ok tt.

(** The bodies of the loops of the writers. *)

Definition write_member (member : option string * c_ast.node) : W unit :=
  let '(name, type) := member in
  ty <~ eval (type_to_ctypes type true) ;;
  write ("        (" ++ dq ++ fmt name ++ dq ++ ", " ++ ty ++ ")," ++ nl).

Definition write_struct (struct : Struct.t) : W unit :=
  write (nl ++ nl ++ "class " ++ Struct.name struct
            ++ "(ctypes.Structure):" ++ nl) ;;;
  if (List.length (Struct.members struct) =? 0)%nat then
    write ("    pass" ++ nl)
  else
    write ("    _fields_ = [" ++ nl) ;;;
    forW (Struct.members struct) write_member ;;;
    write ("    ]" ++ nl).

Definition write_function (function : Function.t) : W unit :=
  write (nl ++ "    lib." ++ Function.name function ++ ".argtypes = ["
            ++ nl ++ "        ") ;;;
  args <~ eval (function_argtypes function) ;;
  write (join ("," ++ nl ++ "        ") args) ;;;
  write (nl ++ "    ]" ++ nl) ;;;
  restype <~ eval (function_restype function) ;;
  write ("    lib." ++ Function.name function ++ ".restype = " ++ restype
            ++ nl).

Definition write_alias (alias : string * c_ast.node) : W unit :=
  let '(name, c_type) := alias in
  ty <~ eval (type_to_ctypes c_type false) ;;
  write (name ++ " = " ++ ty ++ nl).

Definition write_define (define : string * string) : W unit :=
  let '(name, value) := define in
  write (name ++ " = " ++ value ++ nl).


(** How writing the declarations ends: as the first alias, then the first
    member of a struct, then the first parameter or return type of a
    function that does not translate. *)
Definition translation_outcome (data : AstVisitor) : result unit :=
  _ <- all_ok (fun alias => type_to_ctypes (snd alias) false) (types data) ;;
  _ <- all_ok (fun struct =>
                 all_ok (fun member => type_to_ctypes (snd member) true)
                   (Struct.members struct))
         (structs data) ;;
  all_ok (fun function =>
            _ <- function_argtypes function ;; function_restype function)
    (functions data).

(** The lines written for the macro constants. *)
Definition defines_text (defines : list (string * string)) : string :=
  concat EmptyString
    (map (fun '(name, value) => name ++ " = " ++ value ++ nl) defines).

(* ================================================================== *)
(** * Properties *)

(* ================================================================== *)
(** ** The error monad and the loops *)

Lemma bind_Ok_inv {A B : Type} (m : result A) (k : A -> result B) (b : B) :
  bind m k = Ok b -> exists a, m = Ok a /\ k a = Ok b.
Proof.
  destruct m as [a | e]; simpl; intros H; [eauto | discriminate].
Qed.

Lemma mapM_Ok_Forall2 {A B : Type} (f : A -> result B) (l : list A) :
  forall l', mapM f l = Ok l' -> Forall2 (fun x y => f x = Ok y) l l'.
Proof.
  induction l as [| x l IH]; simpl; intros l' H.
  - inversion H; constructor.
  - destruct (f x) as [y | e] eqn:Hx; simpl in H; [| discriminate].
    destruct (mapM f l) as [ys | e]; simpl in H; [| discriminate].
    inversion H; subst. constructor; auto.
Qed.

Lemma Forall2_nth_error {A B : Type} (R : A -> B -> Prop) (l : list A)
  (l' : list B) :
  Forall2 R l l' ->
  forall i x, nth_error l i = Some x ->
    exists y, nth_error l' i = Some y /\ R x y.
Proof.
  induction 1 as [| a b l l' Hab Hrest IH]; intros i x Hi.
  - destruct i; discriminate.
  - destruct i as [| i]; simpl in *.
    + injection Hi as <-. eauto.
    + apply IH. exact Hi.
Qed.

Lemma foldM_invariant {A S : Type} (P : S -> Prop) (f : S -> A -> result S)
  (l : list A) :
  (forall s x s', P s -> f s x = Ok s' -> P s') ->
  forall s s', P s -> foldM f l s = Ok s' -> P s'.
Proof.
  intros Hf. induction l as [| x l IH]; simpl; intros s s' Hs H.
  - inversion H; subst; assumption.
  - destruct (f s x) as [s1 | e] eqn:E; simpl in H; [| discriminate].
    eapply IH; [| exact H]. eapply Hf; eauto.
Qed.

(** A loop whose body can only raise [AttributeError], and does on one of
    the elements, raises [AttributeError]. *)
Lemma foldM_AttributeError {A S : Type} (f : S -> A -> result S)
  (l : list A) (x : A) :
  (forall s y e, f s y = Err e -> e = AttributeError) ->
  In x l -> (forall s, f s x = Err AttributeError) ->
  forall s, foldM f l s = Err AttributeError.
Proof.
  intros Hf Hin Hx. induction l as [| y l IH]; [contradiction |].
  intros s. simpl.
  destruct (f s y) as [s' | e] eqn:E; simpl.
  - destruct Hin as [-> | Hin]; [rewrite Hx in E; discriminate |].
    apply IH. exact Hin.
  - apply Hf in E. subst. reflexivity.
Qed.

Lemma index_nth_error {A : Type} (l : list A) (i : nat) (x : A) :
  nth_error l i = Some x -> index l i = Ok x.
Proof. unfold index. intros ->. reflexivity. Qed.

Lemma index_Ok_lt {A : Type} (l : list A) (i : nat) (x : A) :
  index l i = Ok x -> i < List.length l.
Proof.
  unfold index. destruct (nth_error l i) eqn:E; [| discriminate].
  intros _. apply nth_error_Some. congruence.
Qed.

Lemma list_string_eqb_true (l1 l2 : list string) :
  list_string_eqb l1 l2 = true <-> l1 = l2.
Proof.
  unfold list_string_eqb. destruct (list_eq_dec string_dec l1 l2); split;
    intros; congruence.
Qed.


(* ================================================================== *)
(** ** The name resolver *)

(** C9. A type name that carries the prefix [rascal_] resolves to itself,
    except [rascal_indexes_kind], the one enum that crosses the boundary
    as a plain integer: it resolves to [ctypes.c_int]. *)
Theorem c_type_name_rascal (name : string) :
  startswith name "rascal_" = true ->
  (name = "rascal_indexes_kind" -> c_type_name name = "ctypes.c_int") /\
  (name <> "rascal_indexes_kind" -> c_type_name name = name).
Proof.
  intros Hp. unfold c_type_name. rewrite Hp.
  destruct (String.eqb_spec name "rascal_indexes_kind") as [E | NE]; split;
    intros H; try reflexivity; contradiction.
Qed.

Lemma c_type_name_rascal_witness :
  startswith "rascal_calculator_t" "rascal_" = true /\
  c_type_name "rascal_calculator_t" = "rascal_calculator_t".
Proof.
  split; [reflexivity |].
  apply (c_type_name_rascal "rascal_calculator_t"); [reflexivity | discriminate].
Defined.

Lemma startswith_head (name : string) (c : ascii) (p : string) :
  startswith name (String c p) = true -> exists rest, name = String c rest.
Proof.
  unfold startswith. destruct name as [| b rest]; simpl; [discriminate |].
  destruct (ascii_dec c b) as [-> | _]; [eauto | discriminate].
Qed.

Lemma c_type_name_head (name : string) :
  head_in ["r"; "e"; "c"; "N"]%char (c_type_name name) = true.
Proof.
  unfold c_type_name.
  destruct (startswith name "rascal_") eqn:Hr.
  - destruct (String.eqb name "rascal_indexes_kind"); [reflexivity |].
    apply startswith_head in Hr. destruct Hr as [rest ->]. reflexivity.
  - destruct (startswith name "eqs_") eqn:He.
    + apply startswith_head in He. destruct He as [rest ->]. reflexivity.
    + repeat match goal with
             | |- context [if ?b then _ else _] => destruct b
             end; reflexivity.
Qed.

Lemma c_type_name_None (name : string) :
  c_type_name name = "None" <-> name = "void".
Proof.
  split; [| intros ->; reflexivity].
  unfold c_type_name.
  destruct (startswith name "rascal_") eqn:Hr.
  - destruct (String.eqb name "rascal_indexes_kind"); [discriminate |].
    intros ->. discriminate.
  - destruct (startswith name "eqs_") eqn:He; [intros ->; discriminate |].
    destruct (String.eqb name "uintptr_t"); [discriminate |].
    destruct (String.eqb_spec name "void") as [E | _]; [auto |].
    repeat match goal with
           | |- context [if ?b then _ else _] => destruct b
           end; simpl; discriminate.
Qed.

(* ================================================================== *)
(** ** The scan for macro constants *)

(** C1, as the script does it. A line holding [#define] is skipped when its
    second token is the include guard [RASCALINE_H]; it adds the entry
    (second token, third token) when it has three tokens or more and the
    second is not the guard; a line without [#define] is ignored. Whenever
    a line changes the macro map, it has a name and a value token. *)
Theorem parse_line_define (visitor : AstVisitor) (line : string) :
  (contains "#define" line = false -> parse_line visitor line = Ok visitor) /\
  (contains "#define" line = true ->
   nth_error (split line) 1 = Some "RASCALINE_H" ->
   parse_line visitor line = Ok visitor) /\
  (forall name value,
     contains "#define" line = true ->
     nth_error (split line) 1 = Some name ->
     name <> "RASCALINE_H" ->
     nth_error (split line) 2 = Some value ->
     parse_line visitor line =
       Ok (set_defines visitor
             (dict_set String.eqb (defines visitor) name value))) /\
  (forall visitor',
     parse_line visitor line = Ok visitor' ->
     visitor' <> visitor ->
     contains "#define" line = true /\ 2 < List.length (split line)).
Proof.
  unfold parse_line. split; [| split; [| split]].
  - intros ->. reflexivity.
  - intros -> H1. rewrite (index_nth_error _ _ H1). reflexivity.
  - intros name value -> H1 NE H2.
    rewrite (index_nth_error _ _ H1). simpl.
    destruct (String.eqb_spec name "RASCALINE_H"); [contradiction |].
    rewrite (index_nth_error _ _ H2). reflexivity.
  - intros visitor' H NE.
    destruct (contains "#define" line);
      [| inversion H; subst; contradiction].
    split; [reflexivity |].
    destruct (index (split line) 1) as [name | e]; simpl in H; [| discriminate].
    destruct (String.eqb name "RASCALINE_H").
    + inversion H; subst. contradiction.
    + destruct (index (split line) 2) as [value | e] eqn:E2; simpl in H;
        [| discriminate].
      apply index_Ok_lt in E2. exact E2.
Qed.

Lemma parse_line_define_witness :
  parse_line AstVisitor_init ("#define RASCAL_SUCCESS 0" ++ nl) =
    Ok (set_defines AstVisitor_init [("RASCAL_SUCCESS", "0")]).
Proof.
  apply (parse_line_define AstVisitor_init ("#define RASCAL_SUCCESS 0" ++ nl));
    [reflexivity | reflexivity | discriminate | reflexivity].
Defined.

(** C1, as the spec words it, fails: a [#define] line with a name and no
    value is not skipped, the scan raises [IndexError] and so does the
    run. *)
Lemma parse_line_define_without_value :
  contains "#define" ("#define RASCAL_EXPORT" ++ nl) = true /\
  split ("#define RASCAL_EXPORT" ++ nl) = ["#define"; "RASCAL_EXPORT"] /\
  parse_line AstVisitor_init ("#define RASCAL_EXPORT" ++ nl) = Err IndexError /\
  parse (c_ast.FileAST []) ["#define RASCAL_EXPORT" ++ nl] = Err IndexError /\
  ~ (forall visitor line,
       contains "#define" line = true ->
       List.length (split line) < 3 ->
       parse_line visitor line = Ok visitor).
Proof.
  repeat (split; [reflexivity |]).
  intros H.
  specialize (H AstVisitor_init ("#define RASCAL_EXPORT" ++ nl) eq_refl).
  simpl in H. discriminate H. lia.
Qed.

(* ================================================================== *)
(** ** The collector *)

Lemma visit_FileAST (self : AstVisitor) (ext : list c_ast.node) :
  visit self (c_ast.FileAST ext) = foldM visit ext self.
Proof.
  simpl. revert self.
  induction ext as [| c ext IH]; intros self; simpl; [reflexivity |].
  destruct (visit self c) as [self' | e]; simpl; [apply IH | reflexivity].
Qed.

(** The loop over the parameters appends their [type]s in order. *)
Lemma foldM_add_arg (params : list c_ast.node) :
  forall f,
    foldM (fun f parameter =>
             arg <- attr_type parameter ;; Ok (Function.add_arg f arg))
          params f
    = tys <- mapM attr_type params ;;
      Ok {| Function.name := Function.name f;
            Function.restype := Function.restype f;
            Function.args := (Function.args f ++ tys)%list |}.
Proof.
  induction params as [| p params IH]; intros f; simpl.
  - rewrite app_nil_r. destruct f; reflexivity.
  - destruct (attr_type p) as [ty | e]; simpl; [| reflexivity].
    rewrite IH. simpl.
    destruct (mapM attr_type params) as [tys | e]; simpl; [| reflexivity].
    rewrite <- app_assoc. reflexivity.
Qed.

(** What [visit_Decl] collects for a function declaration: its return type
    and the [type] of each parameter, in the order of declaration. *)
Lemma visit_Decl_function self name params restype bitsize tys :
  startswith name "rascal_" = true ->
  mapM attr_type params = Ok tys ->
  visit self (c_ast.Decl (Some name)
                (c_ast.FuncDecl (Some params) restype) bitsize)
  = Ok (set_functions self
          (functions self ++
             [{| Function.name := name; Function.restype := restype;
                 Function.args := tys |}])%list).
Proof.
  intros Hp Htys. simpl. unfold visit_Decl. simpl. rewrite Hp. simpl.
  rewrite foldM_add_arg, Htys. reflexivity.
Qed.

Lemma forallb_false_In {A : Type} (p : A -> bool) (l : list A) :
  forallb p l = false -> exists x, In x l /\ p x = false.
Proof.
  induction l as [| x l IH]; simpl; [discriminate |].
  destruct (p x) eqn:E; simpl.
  - intros H. destruct (IH H) as (y & Hy & Hp). eauto.
  - intros _. eauto.
Qed.

(** A loop whose body returns on every element returns. *)
Lemma foldM_returns {A S : Type} (f : S -> A -> result S) (l : list A) :
  (forall x, In x l -> forall s, exists s', f s x = Ok s') ->
  forall s, exists s', foldM f l s = Ok s'.
Proof.
  induction l as [| x l IH]; intros H s; simpl; [eauto |].
  destruct (H x (or_introl eq_refl) s) as [s1 ->]. simpl.
  apply IH. intros y Hy. apply H. right. exact Hy.
Qed.

Lemma mapM_attr_type_has_type (params : list c_ast.node) :
  (forallb has_type params = true ->
   exists tys, mapM attr_type params = Ok tys) /\
  (forallb has_type params = false ->
   mapM attr_type params = Err AttributeError).
Proof.
  induction params as [| p params [IHt IHf]]; simpl.
  - split; [eauto | discriminate].
  - unfold has_type at 1 3.
    destruct (attr_type p) as [ty | e] eqn:E; simpl.
    + split; intros H.
      * destruct (IHt H) as [tys ->]. simpl. eauto.
      * rewrite (IHf H). reflexivity.
    + split; [discriminate | intros _].
      destruct p; simpl in E; congruence.
Qed.

(** A declaration that carries the prefix: collected if [reads_Decl],
    stopped by [AttributeError] if not. *)
Lemma visit_Decl_reads self name type bitsize :
  startswith name "rascal_" = true ->
  (reads_Decl type = true ->
   exists f, Function.name f = name /\
     visit self (c_ast.Decl (Some name) type bitsize)
     = Ok (set_functions self (functions self ++ [f])%list)) /\
  (reads_Decl type = false ->
   visit self (c_ast.Decl (Some name) type bitsize) = Err AttributeError).
Proof.
  intros Hp. simpl. unfold visit_Decl. simpl. rewrite Hp. simpl.
  destruct type; try (split; [discriminate | intros _; reflexivity]).
  destruct args as [params |];
    [| split; [discriminate | intros _; reflexivity]].
  simpl. rewrite foldM_add_arg. simpl.
  destruct (mapM_attr_type_has_type params) as [Ht Hf].
  split; intros H.
  - destruct (Ht H) as [tys ->]. simpl. eexists.
    split; [| reflexivity]. reflexivity.
  - rewrite (Hf H). reflexivity.
Qed.

(** A typedef that carries the prefix: collected under its name if
    [reads_Typedef], stopped by [AttributeError] if not. *)
Lemma visit_Typedef_reads self name type :
  startswith name "rascal_" = true ->
  (reads_Typedef type = true ->
   exists self',
     visit self (c_ast.Typedef name type) = Ok self' /\
     ((exists e, Enum.name e = name /\
         self' = set_enums self (enums self ++ [e])%list) \/
      (exists s, Struct.name s = name /\
         self' = set_structs self (structs self ++ [s])%list) \/
      (exists underlying,
         self' = set_types self
                   (dict_set String.eqb (types self) name underlying)))) /\
  (reads_Typedef type = false ->
   visit self (c_ast.Typedef name type) = Err AttributeError).
Proof.
  intros Hp. simpl. unfold visit_Typedef, reads_Typedef. simpl.
  rewrite Hp. simpl.
  destruct (attr_type type) as [underlying | e] eqn:Et; simpl;
    [| split; [discriminate | intros _];
       destruct type; simpl in Et; congruence].
  destruct underlying;
    try (split; [intros _; eexists; split;
                 [reflexivity | right; right; eexists; reflexivity]
                | discriminate]).
  - (* Struct *)
    split; intros H.
    + destruct (foldM_returns
                  (fun s member =>
                     n <- attr_name member ;;
                     ty <- attr_type member ;;
                     Ok (Struct.add_member s n ty))
                  (Struct_children decls)) with
        (s := {| Struct.name := name; Struct.members := [] |})
        as [struct Hs].
      { intros m Hm s. rewrite forallb_forall in H. specialize (H m Hm).
        apply andb_true_iff in H. destruct H as [Hn Hty].
        unfold has_name in Hn. unfold has_type in Hty.
        destruct (attr_name m); [| discriminate].
        destruct (attr_type m); [| discriminate]. simpl. eauto. }
      rewrite Hs. simpl. eexists. split; [reflexivity |].
      right; left. exists struct. split; [| reflexivity].
      revert Hs. apply (foldM_invariant (fun s => Struct.name s = name));
        [| reflexivity].
      intros s0 x s1 Hs0 Hx.
      destruct (attr_name x); simpl in Hx; [| discriminate].
      destruct (attr_type x); simpl in Hx; [| discriminate].
      injection Hx as <-. exact Hs0.
    + apply forallb_false_In in H. destruct H as (m & Hm & H).
      rewrite (foldM_AttributeError _ (Struct_children decls) m);
        [reflexivity | | exact Hm |].
      * intros s y err.
        destruct y; simpl; congruence.
      * intros s. apply andb_false_iff in H.
        unfold has_name, has_type in H.
        destruct m; simpl in *; destruct H; try discriminate; reflexivity.
  - (* Enum *)
    destruct values as [enumerators |]; simpl;
      [| split; [discriminate | reflexivity]].
    split; intros H.
    + destruct (foldM_returns
                  (fun e enumerator =>
                     value <- enumerator_value_value enumerator ;;
                     Ok (Enum.add_value e (c_ast.name enumerator) value))
                  enumerators) with
        (s := {| Enum.name := name; Enum.values := [] |})
        as [enum Hs].
      { intros x Hx s. rewrite forallb_forall in H. specialize (H x Hx).
        unfold holds_literal in H. unfold enumerator_value_value.
        destruct (c_ast.value x) as [[ty v | | |] |]; try discriminate.
        simpl. eauto. }
      rewrite Hs. simpl. eexists. split; [reflexivity |].
      left. exists enum. split; [| reflexivity].
      revert Hs. apply (foldM_invariant (fun en => Enum.name en = name));
        [| reflexivity].
      intros s0 x s1 Hs0 Hx.
      destruct (enumerator_value_value x); simpl in Hx; [| discriminate].
      injection Hx as <-. exact Hs0.
    + apply forallb_false_In in H. destruct H as (x & Hx & H).
      rewrite (foldM_AttributeError _ enumerators x);
        [reflexivity | | exact Hx |].
      * intros s y err. unfold enumerator_value_value.
        destruct (c_ast.value y) as [[ty v | | |] |]; simpl; congruence.
      * intros s. unfold holds_literal in H. unfold enumerator_value_value.
        destruct (c_ast.value x) as [[ty v | | |] |]; try discriminate;
          reflexivity.
Qed.

(** C2, as the script does it. A named top-level declaration or typedef is
    collected if and only if its name starts with [rascal_], the prefix of
    the primary library, and it has a shape the collector reads: a function
    declaration with a parameter list whose entries all have a type
    ([reads_Decl]); a typedef of an enum whose enumerators all hold a
    literal, of a struct whose members all have a name and a type, or of
    anything else ([reads_Typedef]). With any other name, the prefix [eqs_]
    of the dependency included, the visitor is returned as it was, without
    error. With the prefix and another shape the declaration is not
    skipped: the visit raises [AttributeError]. A function declaration is
    appended to [functions] (its return type and the types of its
    parameters, in order), a typedef lands in [enums], [structs] or [types]
    under its name. *)
Theorem visit_collects_rascal_prefix (self : AstVisitor) (name : string) :
  (startswith name "rascal_" = false ->
   forall type bitsize,
     visit self (c_ast.Decl (Some name) type bitsize) = Ok self /\
     visit self (c_ast.Typedef name type) = Ok self) /\
  (startswith name "rascal_" = true ->
   (forall params restype bitsize tys,
      mapM attr_type params = Ok tys ->
      visit self (c_ast.Decl (Some name)
                    (c_ast.FuncDecl (Some params) restype) bitsize)
      = Ok (set_functions self
              (functions self ++
                 [{| Function.name := name; Function.restype := restype;
                     Function.args := tys |}])%list)) /\
   (forall type bitsize self',
      visit self (c_ast.Decl (Some name) type bitsize) = Ok self' ->
      exists f, Function.name f = name /\
        self' = set_functions self (functions self ++ [f])%list) /\
   (forall type self',
      visit self (c_ast.Typedef name type) = Ok self' ->
      (exists e, Enum.name e = name /\
         self' = set_enums self (enums self ++ [e])%list) \/
      (exists s, Struct.name s = name /\
         self' = set_structs self (structs self ++ [s])%list) \/
      (exists underlying,
         self' = set_types self
                   (dict_set String.eqb (types self) name underlying))) /\
   (forall type bitsize,
      (reads_Decl type = true ->
       exists f, Function.name f = name /\
         visit self (c_ast.Decl (Some name) type bitsize)
         = Ok (set_functions self (functions self ++ [f])%list)) /\
      (reads_Decl type = false ->
       visit self (c_ast.Decl (Some name) type bitsize)
       = Err AttributeError)) /\
   (forall type,
      (reads_Typedef type = true ->
       exists self',
         visit self (c_ast.Typedef name type) = Ok self' /\
         ((exists e, Enum.name e = name /\
             self' = set_enums self (enums self ++ [e])%list) \/
          (exists s, Struct.name s = name /\
             self' = set_structs self (structs self ++ [s])%list) \/
          (exists underlying,
             self' = set_types self
                       (dict_set String.eqb (types self) name underlying)))) /\
      (reads_Typedef type = false ->
       visit self (c_ast.Typedef name type) = Err AttributeError))).
Proof.
  split.
  - intros Hp type bitsize. simpl.
    unfold visit_Decl, visit_Typedef. simpl. rewrite Hp. simpl. auto.
  - intros Hp. split; [| split; [| split; [| split]]].
    + intros params restype bitsize tys Htys.
      apply visit_Decl_function; assumption.
    + intros type bitsize self' H.
      destruct (@visit_Decl_reads self name type bitsize Hp) as [Ht Hf].
      destruct (reads_Decl type).
      * destruct (Ht eq_refl) as (f & Hn & Hv). rewrite Hv in H.
        injection H as <-. eauto.
      * rewrite (Hf eq_refl) in H. discriminate.
    + intros type self' H.
      destruct (@visit_Typedef_reads self name type Hp) as [Ht Hf].
      destruct (reads_Typedef type).
      * destruct (Ht eq_refl) as (s' & Hv & Hc). rewrite Hv in H.
        injection H as <-. exact Hc.
      * rewrite (Hf eq_refl) in H. discriminate.
    + intros type bitsize. apply visit_Decl_reads. exact Hp.
    + intros type. apply visit_Typedef_reads. exact Hp.
Qed.

Lemma visit_collects_rascal_prefix_witness :
  startswith "rascal_calculator_free" "rascal_" = true /\
  visit AstVisitor_init
    (c_ast.Decl (Some "rascal_calculator_free")
       (c_ast.FuncDecl
          (Some [c_ast.Decl (Some "calculator")
                   (c_ast.PtrDecl []
                      (c_ast.TypeDecl (Some "calculator") []
                         (c_ast.IdentifierType ["rascal_calculator_t"])))
                   None])
          (c_ast.TypeDecl (Some "rascal_calculator_free") []
             (c_ast.IdentifierType ["rascal_status_t"])))
       None)
  = Ok (set_functions AstVisitor_init
          [{| Function.name := "rascal_calculator_free";
              Function.restype :=
                c_ast.TypeDecl (Some "rascal_calculator_free") []
                  (c_ast.IdentifierType ["rascal_status_t"]);
              Function.args :=
                [c_ast.PtrDecl []
                   (c_ast.TypeDecl (Some "calculator") []
                      (c_ast.IdentifierType ["rascal_calculator_t"]))] |}]) /\
  visit AstVisitor_init
    (c_ast.Decl (Some "rascal_calculator_free")
       (c_ast.TypeDecl (Some "rascal_calculator_free") []
          (c_ast.IdentifierType ["int"]))
       None)
  = Err AttributeError /\
  visit AstVisitor_init
    (c_ast.Typedef "rascal_calculator_free"
       (c_ast.TypeDecl (Some "rascal_calculator_free") []
          (c_ast.Enum None
             (Some [{| c_ast.name := "RASCAL_FIRST"; c_ast.value := None |}]))))
  = Err AttributeError.
Proof.
  split; [reflexivity |].
  split; [| split].
  - apply (proj1 (proj2 (visit_collects_rascal_prefix AstVisitor_init
                           "rascal_calculator_free") eq_refl));
      reflexivity.
  - apply (proj2 (proj1 (proj2 (proj2 (proj2
             (proj2 (visit_collects_rascal_prefix AstVisitor_init
                       "rascal_calculator_free") eq_refl))))
             (c_ast.TypeDecl (Some "rascal_calculator_free") []
                (c_ast.IdentifierType ["int"]))
             None)).
    reflexivity.
  - apply (proj2 (proj2 (proj2 (proj2 (proj2
             (proj2 (visit_collects_rascal_prefix AstVisitor_init
                       "rascal_calculator_free") eq_refl))))
             (c_ast.TypeDecl (Some "rascal_calculator_free") []
                (c_ast.Enum None
                   (Some [{| c_ast.name := "RASCAL_FIRST";
                             c_ast.value := None |}]))))).
    reflexivity.
Defined.

(** C2, as the spec words it, fails: a declaration that carries the prefix
    of the dependency library is not collected. *)
Lemma visit_skips_eqs_prefix :
  startswith "eqs_labels_t" "eqs_" = true /\
  visit AstVisitor_init
    (c_ast.FileAST
       [c_ast.Typedef "eqs_labels_t"
          (c_ast.TypeDecl (Some "eqs_labels_t") []
             (c_ast.Struct (Some "eqs_labels_t")
                (Some [c_ast.Decl (Some "count")
                         (c_ast.TypeDecl (Some "count") []
                            (c_ast.IdentifierType ["uintptr_t"]))
                         None])));
        c_ast.Decl (Some "eqs_last_error")
          (c_ast.FuncDecl
             (Some [c_ast.Typename None
                      (c_ast.TypeDecl None []
                         (c_ast.IdentifierType ["void"]))])
             (c_ast.PtrDecl []
                (c_ast.TypeDecl (Some "eqs_last_error") [ "const" ]
                   (c_ast.IdentifierType ["char"]))))
          None])
  = Ok AstVisitor_init.
Proof. split; reflexivity. Qed.

(* ================================================================== *)
(** ** Enumerations *)

Lemma dict_set_fresh {V : Type} (d : list (string * V)) (k : string) (v : V) :
  ~ In k (map fst d) -> dict_set String.eqb d k v = (d ++ [(k, v)])%list.
Proof.
  induction d as [| [k' v'] d IH]; simpl; intros Hk; [reflexivity |].
  destruct (String.eqb_spec k' k) as [E | NE]; [exfalso; auto |].
  rewrite IH; [reflexivity | tauto].
Qed.

(** Distinct names are stored one after the other, in order. *)
Lemma fold_dict_set_NoDup {V : Type} (l : list (string * V)) :
  forall d,
    NoDup (map fst (d ++ l)%list) ->
    fold_left (fun d '(n, v) => dict_set String.eqb d n v) l d = (d ++ l)%list.
Proof.
  induction l as [| [k v] l IH]; intros d Hnd; simpl.
  - rewrite app_nil_r. reflexivity.
  - rewrite dict_set_fresh.
    + rewrite IH; rewrite <- app_assoc; [reflexivity | exact Hnd].
    + rewrite map_app in Hnd. simpl in Hnd.
      apply NoDup_remove_2 in Hnd. intros Hin. apply Hnd.
      apply in_or_app. left. exact Hin.
Qed.

(** The loop over enumerators that all hold a literal. *)
Lemma foldM_add_value (enumerators : list c_ast.Enumerator) :
  forall (literals : list (string * string)) (enum : Enum.t),
    map c_ast.value enumerators
    = map (fun l => Some (c_ast.Constant (fst l) (snd l))) literals ->
    foldM (fun e enumerator =>
             value <- enumerator_value_value enumerator ;;
             Ok (Enum.add_value e (c_ast.name enumerator) value))
          enumerators enum
    = Ok {| Enum.name := Enum.name enum;
            Enum.values :=
              fold_left (fun d '(n, v) => dict_set String.eqb d n v)
                (combine (map c_ast.name enumerators) (map snd literals))
                (Enum.values enum) |}.
Proof.
  induction enumerators as [| x enumerators IH]; intros literals enum Hl.
  - simpl. destruct enum; reflexivity.
  - destruct literals as [| [ty v] literals]; [discriminate |].
    simpl in Hl. injection Hl as Hx Hl.
    simpl. unfold enumerator_value_value at 1. rewrite Hx. simpl.
    rewrite (IH literals _ Hl). reflexivity.
Qed.

(** C10. For a typedef of an enum that carries the prefix, an enumerator
    without a value makes the collection raise [AttributeError], no value
    being computed or defaulted; when every enumerator holds a literal, the
    enum is collected under the typedef's name with, for each enumerator,
    its name and the text of its literal as written, in order. *)
Theorem visit_Typedef_enum
  (self : AstVisitor) (name : string) (declname tag : option string)
  (quals : list string) (enumerators : list c_ast.Enumerator) :
  startswith name "rascal_" = true ->
  let node :=
    c_ast.Typedef name
      (c_ast.TypeDecl declname quals (c_ast.Enum tag (Some enumerators))) in
  ((exists e, In e enumerators /\ c_ast.value e = None) ->
   visit self node = Err AttributeError) /\
  ((exists e, In e enumerators /\
      forall ty v, c_ast.value e <> Some (c_ast.Constant ty v)) ->
   visit self node = Err AttributeError) /\
  (forall literals : list (string * string),
     map c_ast.value enumerators
     = map (fun l => Some (c_ast.Constant (fst l) (snd l))) literals ->
     visit self node
     = Ok (set_enums self
             (enums self ++
                [{| Enum.name := name;
                    Enum.values :=
                      fold_left (fun d '(n, v) => dict_set String.eqb d n v)
                        (combine (map c_ast.name enumerators)
                           (map snd literals)) [] |}])%list) /\
     (NoDup (map c_ast.name enumerators) ->
      visit self node
      = Ok (set_enums self
              (enums self ++
                 [{| Enum.name := name;
                     Enum.values :=
                       combine (map c_ast.name enumerators)
                         (map snd literals) |}])%list))).
Proof.
  intros Hp node. unfold node. simpl. unfold visit_Typedef. simpl.
  rewrite Hp. simpl.
  assert (Hraise : (exists e, In e enumerators /\
                      forall ty v, c_ast.value e <> Some (c_ast.Constant ty v)) ->
                   bind
                     (foldM (fun e enumerator =>
                               value <- enumerator_value_value enumerator ;;
                               Ok (Enum.add_value e (c_ast.name enumerator) value))
                            enumerators
                            {| Enum.name := name; Enum.values := [] |})
                     (fun enum =>
                        Ok (set_enums self (enums self ++ [enum])%list))
                   = Err AttributeError).
  { intros (e & Hin & Hnone).
    rewrite (foldM_AttributeError _ enumerators e); [reflexivity | | exact Hin |].
    - intros s y err. unfold enumerator_value_value.
      destruct (c_ast.value y) as [[ty v | | |] |]; simpl; congruence.
    - intros s. unfold enumerator_value_value.
      destruct (c_ast.value e) as [[ty v | | |] |]; try reflexivity.
      exfalso. apply (Hnone ty v). reflexivity. }
  split; [| split].
  - intros (e & Hin & Hnone). apply Hraise. exists e. split; [exact Hin |].
    intros ty v. rewrite Hnone. discriminate.
  - exact Hraise.
  - intros literals Hl. rewrite (foldM_add_value enumerators literals _ Hl).
    simpl. split; [reflexivity |].
    intros Hnd. rewrite fold_dict_set_NoDup; [reflexivity |].
    simpl. 
    assert (Hlen : List.length (map c_ast.name enumerators)
                   = List.length (map snd literals)).
    { rewrite !length_map. rewrite <- (length_map c_ast.value enumerators).
      rewrite Hl, length_map. reflexivity. }
    revert Hnd Hlen. generalize (map c_ast.name enumerators) (map snd literals).
    induction l as [| k l IH]; intros [| v l0]; simpl; try discriminate;
      intros Hnd Hlen; [constructor |].
    inversion Hnd; subst. constructor.
    + intros Hin. apply H1.
      clear - Hin. revert l0 Hin.
      induction l as [| k' l IH]; intros [| v' l0]; simpl; try tauto.
      intros [E | Hin]; [left; exact E | right; eapply IH; exact Hin].
    + apply IH; [assumption | now injection Hlen].
Qed.

Lemma visit_Typedef_enum_witness :
  visit AstVisitor_init
    (c_ast.Typedef "rascal_indexes_kind"
       (c_ast.TypeDecl (Some "rascal_indexes_kind") []
          (c_ast.Enum (Some "rascal_indexes_kind")
             (Some [{| c_ast.name := "RASCAL_INDEXES_KEYS";
                       c_ast.value := Some (c_ast.Constant "int" "0") |};
                    {| c_ast.name := "RASCAL_INDEXES_SAMPLES";
                       c_ast.value := Some (c_ast.Constant "int" "1") |}]))))
  = Ok (set_enums AstVisitor_init
          [{| Enum.name := "rascal_indexes_kind";
              Enum.values := [("RASCAL_INDEXES_KEYS", "0");
                              ("RASCAL_INDEXES_SAMPLES", "1")] |}]) /\
  visit AstVisitor_init
    (c_ast.Typedef "rascal_indexes_kind"
       (c_ast.TypeDecl (Some "rascal_indexes_kind") []
          (c_ast.Enum (Some "rascal_indexes_kind")
             (Some [{| c_ast.name := "RASCAL_INDEXES_KEYS";
                       c_ast.value := Some (c_ast.Constant "int" "0") |};
                    {| c_ast.name := "RASCAL_INDEXES_SAMPLES";
                       c_ast.value := None |}]))))
  = Err AttributeError.
Proof.
  split.
  - apply (proj1 (proj2 (proj2 (visit_Typedef_enum AstVisitor_init
                           "rascal_indexes_kind" (Some "rascal_indexes_kind")
                           (Some "rascal_indexes_kind") []
                           [{| c_ast.name := "RASCAL_INDEXES_KEYS";
                               c_ast.value := Some (c_ast.Constant "int" "0") |};
                            {| c_ast.name := "RASCAL_INDEXES_SAMPLES";
                               c_ast.value := Some (c_ast.Constant "int" "1") |}]
                           eq_refl))
                    [("int", "0"); ("int", "1")] eq_refl)).
  - apply (proj1 (visit_Typedef_enum AstVisitor_init
                    "rascal_indexes_kind" (Some "rascal_indexes_kind")
                    (Some "rascal_indexes_kind") []
                    [{| c_ast.name := "RASCAL_INDEXES_KEYS";
                        c_ast.value := Some (c_ast.Constant "int" "0") |};
                     {| c_ast.name := "RASCAL_INDEXES_SAMPLES";
                        c_ast.value := None |}]
                    eq_refl)).
    eexists. split; [right; left; reflexivity | reflexivity].
Defined.

(* ================================================================== *)
(** ** The type translator *)

(** A pointer to a function type translates as the function type. *)
Lemma type_to_ctypes_PtrDecl_FuncDecl quals args restype ndpointer :
  type_to_ctypes (c_ast.PtrDecl quals (c_ast.FuncDecl args restype)) ndpointer
  = type_to_ctypes (c_ast.FuncDecl args restype) ndpointer.
Proof. reflexivity. Qed.

(** On a function type [type_to_ctypes] is [funcdecl_to_ctypes]. *)
Lemma type_to_ctypes_FuncDecl args restype ndpointer :
  type_to_ctypes (c_ast.FuncDecl args restype) ndpointer
  = funcdecl_to_ctypes (c_ast.FuncDecl args restype) ndpointer.
Proof.
  unfold funcdecl_to_ctypes. simpl.
  destruct args as [params |]; simpl; [| reflexivity].
  f_equal.
  induction params as [| t params IH]; simpl; [reflexivity |].
  rewrite IH. destruct t; reflexivity.
Qed.

Lemma _typedecl_name_TypeDecl (type : c_ast.node) (name : option string) :
  _typedecl_name type = Ok name ->
  exists declname quals inner, type = c_ast.TypeDecl declname quals inner.
Proof.
  destruct type; simpl; try discriminate. intros _. eauto.
Qed.

Lemma name_is_Some (name s : string) :
  name_is (Some name) s = String.eqb name s.
Proof. reflexivity. Qed.

(* ================================================================== *)
(** ** What the translations look like *)

Lemma head_in_incl (cs cs' : list ascii) (s : string) :
  incl cs cs' -> head_in cs s = true -> head_in cs' s = true.
Proof.
  intros Hi. destruct s as [| c s]; simpl; [discriminate |].
  rewrite !existsb_exists. intros (x & Hx & E). exists x. auto.
Qed.

Lemma head_in_append (cs : list ascii) (s s' : string) :
  head_in cs s = true -> head_in cs (s ++ s') = true.
Proof. destruct s; simpl; [discriminate | auto]. Qed.

Lemma c_type_name_dyn_head (name : option string) (s : string) :
  c_type_name_dyn name = Ok s ->
  head_in ["r"; "e"; "c"; "N"; "P"; "C"]%char s = true.
Proof.
  destruct name as [n |]; simpl; [| discriminate].
  intros H; injection H as <-.
  eapply head_in_incl; [| apply c_type_name_head].
  intros x Hx. simpl in *. tauto.
Qed.

Lemma type_to_ctypes_FuncDecl_head args restype ndpointer s :
  type_to_ctypes (c_ast.FuncDecl args restype) ndpointer = Ok s ->
  head_in ["C"]%char s = true.
Proof.
  rewrite type_to_ctypes_FuncDecl.
  unfold funcdecl_to_ctypes, cfunctype. intros H.
  apply bind_Ok_inv in H. destruct H as (r & _ & H).
  apply bind_Ok_inv in H. destruct H as (a & _ & H).
  injection H as <-; reflexivity.
Qed.

(** Every translation starts with one of six letters: a resolved name
    ([rascal_...], [eqs_...], [ctypes...], [c_uintptr_t], [None]), or
    [POINTER(] or [CFUNCTYPE(]. *)
Lemma type_to_ctypes_head (type : c_ast.node) :
  forall ndpointer s,
    type_to_ctypes type ndpointer = Ok s ->
    head_in ["r"; "e"; "c"; "N"; "P"; "C"]%char s = true.
Proof.
  induction type using c_ast.node_ind'; intros ndpointer res Hok;
    try (simpl in Hok; discriminate).
  - (* PtrDecl *)
    destruct type; try (simpl in Hok; discriminate).
    + (* pointer to pointer *)
      destruct type; try (simpl in Hok; discriminate).
      cbn [type_to_ctypes] in Hok.
      apply bind_Ok_inv in Hok. destruct Hok as (name & _ & Hok).
      destruct (name_is name "char"); [injection Hok as <-; reflexivity |].
      apply bind_Ok_inv in Hok. destruct Hok as (n & _ & Hok).
      destruct ndpointer; injection Hok as <-; reflexivity.
    + (* pointer to a named type *)
      cbn [type_to_ctypes] in Hok.
      apply bind_Ok_inv in Hok. destruct Hok as (name & _ & Hok).
      destruct (name_is name "void"); [injection Hok as <-; reflexivity |].
      destruct (name_is name "char"); [injection Hok as <-; reflexivity |].
      apply bind_Ok_inv in Hok. destruct Hok as (n & _ & Hok).
      injection Hok as <-; reflexivity.
    + (* pointer to function *)
      rewrite type_to_ctypes_PtrDecl_FuncDecl, type_to_ctypes_FuncDecl in Hok.
      unfold funcdecl_to_ctypes, cfunctype in Hok.
      apply bind_Ok_inv in Hok. destruct Hok as (r & _ & Hok).
      apply bind_Ok_inv in Hok. destruct Hok as (a & _ & Hok).
      injection Hok as <-; reflexivity.
  - (* TypeDecl *)
    cbn [type_to_ctypes] in Hok.
    apply bind_Ok_inv in Hok. destruct Hok as (name & _ & Hok).
    eapply c_type_name_dyn_head; eassumption.
  - (* IdentifierType *)
    cbn [type_to_ctypes] in Hok.
    apply bind_Ok_inv in Hok. destruct Hok as (name & _ & Hok).
    injection Hok as <-.
    eapply head_in_incl; [| apply c_type_name_head].
    intros x Hx. simpl in *. tauto.
  - (* ArrayDecl *)
    cbn [type_to_ctypes] in Hok.
    destruct d as [[ty size | | |] |]; try discriminate.
    apply bind_Ok_inv in Hok. destruct Hok as (e & He & Hok).
    injection Hok as <-. apply head_in_append. eapply IHtype; eassumption.
  - (* FuncDecl *)
    rewrite type_to_ctypes_FuncDecl in Hok.
    unfold funcdecl_to_ctypes, cfunctype in Hok.
    apply bind_Ok_inv in Hok. destruct Hok as (r & _ & Hok).
    apply bind_Ok_inv in Hok. destruct Hok as (a0 & _ & Hok).
    injection Hok as <-; reflexivity.
Qed.

Lemma append_star_not_None (e size : string) : e ++ " * " ++ size <> "None".
Proof.
  destruct e as [| c1 [| c2 [| c3 [| c4 [| c5 e]]]]]; simpl; discriminate.
Qed.

(** The translation is [None] exactly for a type named [void]. *)
Lemma type_to_ctypes_None (type : c_ast.node) (ndpointer : bool) :
  type_to_ctypes type ndpointer = Ok "None" <-> names_void type = true.
Proof.
  split.
  - intros H. destruct type; try (simpl in H; discriminate).
    + (* PtrDecl *)
      destruct type; try (simpl in H; discriminate).
      * destruct type; try (simpl in H; discriminate).
        cbn [type_to_ctypes] in H.
        apply bind_Ok_inv in H. destruct H as (name & _ & H).
        destruct (name_is name "char"); [discriminate |].
        apply bind_Ok_inv in H. destruct H as (n & _ & H).
        destruct ndpointer; discriminate.
      * cbn [type_to_ctypes] in H.
        apply bind_Ok_inv in H. destruct H as (name & _ & H).
        destruct (name_is name "void"); [discriminate |].
        destruct (name_is name "char"); [discriminate |].
        apply bind_Ok_inv in H. destruct H as (n & _ & H). discriminate.
      * rewrite type_to_ctypes_PtrDecl_FuncDecl in H.
        apply type_to_ctypes_FuncDecl_head in H. discriminate.
    + (* TypeDecl *)
      cbn [type_to_ctypes] in H.
      apply bind_Ok_inv in H. destruct H as (name & Hn & H).
      destruct name as [n |]; simpl in H; [| discriminate].
      injection H as H. apply c_type_name_None in H. subst n.
      simpl in Hn. destruct type; try discriminate.
      * destruct names as [| n [| n' names]]; simpl in Hn; try discriminate.
        injection Hn as ->. reflexivity.
      * injection Hn as ->. reflexivity.
      * injection Hn as ->. reflexivity.
    + (* IdentifierType *)
      cbn [type_to_ctypes] in H.
      apply bind_Ok_inv in H. destruct H as (n & Hn & H).
      injection H as H. apply c_type_name_None in H. subst n.
      destruct names as [| n names]; [discriminate |].
      injection Hn as ->. reflexivity.
    + (* ArrayDecl *)
      cbn [type_to_ctypes] in H.
      destruct dim as [[ty size | | |] |]; try discriminate.
      apply bind_Ok_inv in H. destruct H as (e & _ & H).
      injection H as H. apply append_star_not_None in H. contradiction.
    + (* FuncDecl *)
      apply type_to_ctypes_FuncDecl_head in H. discriminate.
  - destruct type; simpl; try discriminate.
    + destruct type; try discriminate.
      * destruct names as [| n [| n' names]]; try discriminate.
        intros H. apply String.eqb_eq in H. subst. reflexivity.
      * destruct name as [n |]; try discriminate.
        intros H. apply String.eqb_eq in H. subst. reflexivity.
      * destruct name as [n |]; try discriminate.
        intros H. apply String.eqb_eq in H. subst. reflexivity.
    + destruct names as [| n names]; try discriminate.
      intros H. apply String.eqb_eq in H. subst. reflexivity.
Qed.

Lemma is_void_names_void (type : c_ast.node) :
  is_void type = true -> names_void type = true.
Proof.
  destruct type; try discriminate. destruct type; try discriminate.
  destruct names as [| n [| n' names]]; try discriminate.
  simpl. auto.
Qed.

(* ================================================================== *)
(** ** Arrays, strings and buffers *)

(** The translation of a parameter stands in [argtypes] at the position of
    the parameter, unless it is [None]. *)
Lemma function_argtypes_nth (function : Function.t) (args : list string)
  (i : nat) (type : c_ast.node) (s : string) :
  function_argtypes function = Ok args ->
  nth_error (Function.args function) i = Some type ->
  type_to_ctypes type false = Ok s ->
  s <> "None" ->
  nth_error args i = Some s.
Proof.
  unfold function_argtypes. intros H Hi Hs Hnone.
  destruct (mapM (fun arg => type_to_ctypes arg false)
              (Function.args function)) as [l | e] eqn:Em;
    cbn [bind] in H; [| discriminate].
  apply mapM_Ok_Forall2 in Em.
  destruct (Forall2_nth_error Em _ Hi) as (y & Hy & Hty).
  rewrite Hs in Hty. injection Hty as <-.
  destruct (list_string_eqb l ["None"]) eqn:El.
  - apply list_string_eqb_true in El. subst l.
    destruct i as [| [| i]]; simpl in Hy; try discriminate.
    injection Hy as <-. contradiction.
  - injection H as <-. exact Hy.
Qed.

(** C4. An array whose dimension is a literal constant translates to the
    translation of its element (in the default context), followed by
    [ * ] and the literal as written; an array with any other dimension,
    or none, fails with the unsupported-type error, whatever its element. *)
Theorem type_to_ctypes_ArrayDecl
  (elem : c_ast.node) (dim : option c_ast.expr) (ndpointer : bool) :
  (forall ty size,
     dim = Some (c_ast.Constant ty size) ->
     type_to_ctypes (c_ast.ArrayDecl elem dim) ndpointer
     = (e <- type_to_ctypes elem false ;; Ok (e ++ " * " ++ size)) /\
     (forall e, type_to_ctypes elem false = Ok e ->
        type_to_ctypes (c_ast.ArrayDecl elem dim) ndpointer
        = Ok (e ++ " * " ++ size))) /\
  ((forall ty size, dim <> Some (c_ast.Constant ty size)) ->
   type_to_ctypes (c_ast.ArrayDecl elem dim) ndpointer
   = Err (Exception "dynamically sized arrays are not supported")).
Proof.
  split.
  - intros ty size ->. simpl. split; [reflexivity |].
    intros e ->. reflexivity.
  - intros H. simpl. destruct dim as [[ty size | | |] |]; try reflexivity.
    exfalso. apply (H ty size). reflexivity.
Qed.

Lemma type_to_ctypes_ArrayDecl_witness :
  type_to_ctypes
    (c_ast.ArrayDecl
       (c_ast.TypeDecl (Some "cell") [] (c_ast.IdentifierType ["double"]))
       (Some (c_ast.Constant "int" "10")))
    true
  = Ok "ctypes.c_double * 10" /\
  type_to_ctypes
    (c_ast.ArrayDecl
       (c_ast.TypeDecl (Some "cell") [] (c_ast.IdentifierType ["double"]))
       (Some (c_ast.ID "n")))
    true
  = Err (Exception "dynamically sized arrays are not supported").
Proof.
  split.
  - apply (type_to_ctypes_ArrayDecl
             (c_ast.TypeDecl (Some "cell") [] (c_ast.IdentifierType ["double"]))
             (Some (c_ast.Constant "int" "10")) true) with (ty := "int");
      reflexivity.
  - apply (type_to_ctypes_ArrayDecl
             (c_ast.TypeDecl (Some "cell") [] (c_ast.IdentifierType ["double"]))
             (Some (c_ast.ID "n")) true).
    intros ty size. discriminate.
Defined.

(** C5. A pointer to [char] translates to [ctypes.c_char_p] and a pointer
    to pointer to [char] to [POINTER(ctypes.c_char_p)], whatever the
    qualifiers and the declared name, with and without the [ndpointer]
    convention: so it is for a parameter of a function, for its return
    type and for a field of a struct. *)
Theorem type_to_ctypes_char_pointer
  (quals quals' cquals : list string) (declname : option string) :
  let char :=
    c_ast.TypeDecl declname cquals (c_ast.IdentifierType ["char"]) in
  let string := c_ast.PtrDecl quals char in
  let strings := c_ast.PtrDecl quals (c_ast.PtrDecl quals' char) in
  (forall ndpointer, type_to_ctypes string ndpointer = Ok "ctypes.c_char_p") /\
  (forall ndpointer,
     type_to_ctypes strings ndpointer = Ok "POINTER(ctypes.c_char_p)") /\
  (forall function args i,
     function_argtypes function = Ok args ->
     (nth_error (Function.args function) i = Some string ->
      nth_error args i = Some "ctypes.c_char_p") /\
     (nth_error (Function.args function) i = Some strings ->
      nth_error args i = Some "POINTER(ctypes.c_char_p)")) /\
  (forall function,
     (Function.restype function = string ->
      function_restype function = Ok "ctypes.c_char_p") /\
     (Function.restype function = strings ->
      function_restype function = Ok "POINTER(ctypes.c_char_p)")) /\
  (forall struct field file,
     generate_structs
       [{| Struct.name := struct; Struct.members := [(field, string)] |}] file
     = ((((file
           ++ (nl ++ nl ++ "class " ++ struct ++ "(ctypes.Structure):" ++ nl))
           ++ ("    _fields_ = [" ++ nl))
           ++ ("        (" ++ dq ++ fmt field ++ dq ++ ", "
                  ++ "ctypes.c_char_p" ++ ")," ++ nl))
           ++ ("    ]" ++ nl),
        Ok tt) /\
     generate_structs
       [{| Struct.name := struct; Struct.members := [(field, strings)] |}] file
     = ((((file
           ++ (nl ++ nl ++ "class " ++ struct ++ "(ctypes.Structure):" ++ nl))
           ++ ("    _fields_ = [" ++ nl))
           ++ ("        (" ++ dq ++ fmt field ++ dq ++ ", "
                  ++ "POINTER(ctypes.c_char_p)" ++ ")," ++ nl))
           ++ ("    ]" ++ nl),
        Ok tt)).
Proof.
  intros char string strings.
  split; [reflexivity |]. split; [reflexivity |].
  split; [| split].
  - intros function args i Hargs. split; intros Hi.
    + apply (function_argtypes_nth function i Hargs Hi);
        [reflexivity | discriminate].
    + apply (function_argtypes_nth function i Hargs Hi);
        [reflexivity | discriminate].
  - intros function. unfold function_restype.
    split; intros ->; reflexivity.
  - intros struct field file. split; reflexivity.
Qed.

Lemma type_to_ctypes_char_pointer_witness :
  function_argtypes
    {| Function.name := "rascal_log";
       Function.restype :=
         c_ast.TypeDecl (Some "rascal_log") [] (c_ast.IdentifierType ["void"]);
       Function.args :=
         [c_ast.TypeDecl (Some "level") [] (c_ast.IdentifierType ["int32_t"]);
          c_ast.PtrDecl []
            (c_ast.TypeDecl (Some "message") ["const"]
               (c_ast.IdentifierType ["char"]))] |}
  = Ok ["ctypes.c_int32"; "ctypes.c_char_p"] /\
  nth_error ["ctypes.c_int32"; "ctypes.c_char_p"] 1 = Some "ctypes.c_char_p".
Proof.
  split; [reflexivity |].
  apply (proj1
           (proj1 (proj2 (proj2 (type_to_ctypes_char_pointer [] [] ["const"]
                                   (Some "message"))))
              {| Function.name := "rascal_log";
                 Function.restype :=
                   c_ast.TypeDecl (Some "rascal_log") []
                     (c_ast.IdentifierType ["void"]);
                 Function.args :=
                   [c_ast.TypeDecl (Some "level") []
                      (c_ast.IdentifierType ["int32_t"]);
                    c_ast.PtrDecl []
                      (c_ast.TypeDecl (Some "message") ["const"]
                         (c_ast.IdentifierType ["char"]))] |}
              ["ctypes.c_int32"; "ctypes.c_char_p"] 1 eq_refl));
    reflexivity.
Defined.



(* ================================================================== *)
(** ** The translator on and off its grammar *)

Lemma in_grammar_FuncDecl params restype :
  in_grammar (c_ast.FuncDecl (Some params) restype)
  = in_grammar restype && forallb param_in_grammar params.
Proof.
  reflexivity.
Qed.

Lemma named_typedecl_name declname quals inner :
  named inner = true ->
  exists n, _typedecl_name (c_ast.TypeDecl declname quals inner) = Ok (Some n).
Proof.
  destruct inner; simpl; try discriminate.
  - destruct names as [| n [| n' names]]; try discriminate.
    intros _. exists n. reflexivity.
  - destruct name as [n |]; [intros _; exists n; reflexivity | discriminate].
  - destruct name as [n |]; [intros _; exists n; reflexivity | discriminate].
Qed.

(** The translator returns on every type of its grammar, and on the type
    of every node the grammar accepts. *)
Lemma type_to_ctypes_in_grammar (type : c_ast.node) :
  (forall ndpointer, in_grammar type = true ->
     exists s, type_to_ctypes type ndpointer = Ok s) /\
  (forall ty ndpointer, attr_type type = Ok ty -> in_grammar ty = true ->
     exists s, type_to_ctypes ty ndpointer = Ok s).
Proof.
  induction type using c_ast.node_ind';
    (split; [intros ndpointer Hg | intros ty ndpointer Hty Hg]);
    try (simpl in Hg; discriminate); try (simpl in Hty; discriminate);
    try (injection Hty as <-; apply (proj1 IHtype); exact Hg).
  - (* PtrDecl *)
    destruct type; try (simpl in Hg; discriminate).
    + destruct type; try (simpl in Hg; discriminate).
      cbn [in_grammar] in Hg.
      destruct (named_typedecl_name declname quals0 _ Hg) as [n Hn].
      cbn [type_to_ctypes]. rewrite Hn. cbn [bind].
      destruct (name_is (Some n) "char"); [eauto |].
      cbn [c_type_name_dyn bind]. destruct ndpointer; eauto.
    + cbn [in_grammar] in Hg.
      destruct (named_typedecl_name declname quals _ Hg) as [n Hn].
      cbn [type_to_ctypes]. rewrite Hn. cbn [bind].
      destruct (name_is (Some n) "void"); [eauto |].
      destruct (name_is (Some n) "char"); [eauto |].
      cbn [c_type_name_dyn bind]. eauto.
    + rewrite type_to_ctypes_PtrDecl_FuncDecl. apply (proj1 IHtype). exact Hg.
  - (* TypeDecl *)
    cbn [in_grammar] in Hg.
    destruct (named_typedecl_name d q _ Hg) as [n Hn].
    cbn [type_to_ctypes]. rewrite Hn. cbn [bind c_type_name_dyn]. eauto.
  - (* IdentifierType *)
    destruct ns as [| n [| n' ns]]; try discriminate. simpl. eauto.
  - (* ArrayDecl *)
    destruct d as [[ty size | | |] |]; try discriminate.
    cbn [in_grammar] in Hg. cbn [type_to_ctypes].
    destruct (proj1 IHtype false Hg) as [e ->]. cbn [bind]. eauto.
  - (* FuncDecl *)
    destruct a as [params |]; [| simpl in Hg; rewrite andb_false_r in Hg;
                                 discriminate].
    rewrite in_grammar_FuncDecl in Hg. apply andb_true_iff in Hg.
    destruct Hg as [Hr Hps].
    rewrite type_to_ctypes_FuncDecl. unfold funcdecl_to_ctypes, cfunctype.
    cbn [attr_type attr_args_params bind].
    destruct (proj1 IHtype ndpointer Hr) as [r ->]. cbn [bind].
    assert (Hm : exists l,
               mapM (fun t => ty <- attr_type t ;; type_to_ctypes ty ndpointer)
                 params = Ok l).
    { simpl in H. clear - H Hps.
      induction params as [| p params IH]; [simpl; eauto |].
      inversion H as [| ? ? Hp Hrest]; subst.
      simpl in Hps. apply andb_true_iff in Hps. destruct Hps as [Hpg Hps].
      destruct (IH Hrest Hps) as [l Hl]. cbn [mapM]. 
      destruct p; try discriminate; cbn [attr_type bind];
        (destruct (proj2 Hp _ ndpointer eq_refl Hpg) as [s ->]);
        cbn [bind]; rewrite Hl; cbn [bind]; eauto. }
    destruct Hm as [l ->]. cbn [bind]. eauto.
Qed.

(** C3, as the script does it. The translator returns a translation on
    every type of its grammar. It raises the unsupported-type error, the
    generic [Exception], on every shape it does not recognise and on an
    array whose dimension is not a literal; a declared type whose name has
    several words is stopped by the assertion of [_typedecl_name]: it
    raises [AssertionError], not the unsupported-type error. *)
Theorem type_to_ctypes_grammar (type : c_ast.node) (ndpointer : bool) :
  (in_grammar type = true -> exists s, type_to_ctypes type ndpointer = Ok s) /\
  (unrecognised type = true ->
   type_to_ctypes type ndpointer = Err (Exception "Unknown type")) /\
  (dynamic_array type = true ->
   type_to_ctypes type ndpointer
   = Err (Exception "dynamically sized arrays are not supported")) /\
  (several_words type = true ->
   type_to_ctypes type ndpointer = Err AssertionError) /\
  (forall q1 q2 q3 pointee,
     type = c_ast.PtrDecl q1 (c_ast.PtrDecl q2 (c_ast.PtrDecl q3 pointee)) ->
     type_to_ctypes type ndpointer = Err (Exception "Unknown type")).
Proof.
  split; [| split; [| split; [| split]]].
  - apply type_to_ctypes_in_grammar.
  - intros H. destruct type; try reflexivity; try discriminate.
    destruct type; try reflexivity; try discriminate.
    destruct type; try reflexivity; discriminate.
  - intros H. destruct type; try discriminate.
    destruct dim as [[ty size | | |] |]; try reflexivity. discriminate.
  - intros H. destruct type; try discriminate.
    + destruct type; try discriminate.
      * destruct type; try discriminate. destruct type; try discriminate.
        simpl in H. cbn [type_to_ctypes _typedecl_name].
        destruct (List.length names =? 1)%nat; [discriminate | reflexivity].
      * destruct type; try discriminate.
        simpl in H. cbn [type_to_ctypes _typedecl_name].
        destruct (List.length names =? 1)%nat; [discriminate | reflexivity].
    + destruct type; try discriminate.
      simpl in H. cbn [type_to_ctypes _typedecl_name].
      destruct (List.length names =? 1)%nat; [discriminate | reflexivity].
  - intros q1 q2 q3 pointee ->. reflexivity.
Qed.

Lemma type_to_ctypes_grammar_witness :
  (exists s,
     type_to_ctypes
       (c_ast.PtrDecl []
          (c_ast.FuncDecl
             (Some [c_ast.Decl (Some "level")
                      (c_ast.TypeDecl (Some "level") []
                         (c_ast.IdentifierType ["int32_t"])) None;
                    c_ast.Decl (Some "message")
                      (c_ast.PtrDecl []
                         (c_ast.TypeDecl (Some "message") ["const"]
                            (c_ast.IdentifierType ["char"]))) None])
             (c_ast.TypeDecl (Some "rascal_logging_callback_t") []
                (c_ast.IdentifierType ["void"]))))
       false = Ok s) /\
  type_to_ctypes
    (c_ast.PtrDecl []
       (c_ast.PtrDecl []
          (c_ast.PtrDecl []
             (c_ast.TypeDecl (Some "values") []
                (c_ast.IdentifierType ["double"])))))
    true
  = Err (Exception "Unknown type") /\
  type_to_ctypes
    (c_ast.PtrDecl []
       (c_ast.TypeDecl (Some "count") []
          (c_ast.IdentifierType ["unsigned"; "long"])))
    false
  = Err AssertionError.
Proof.
  split; [| split].
  - apply (proj1 (type_to_ctypes_grammar _ false)). reflexivity.
  - apply (proj1 (proj2 (type_to_ctypes_grammar _ true))). reflexivity.
  - apply (proj1 (proj2 (proj2 (proj2 (type_to_ctypes_grammar _ false))))).
    reflexivity.
Defined.

(** C3, as the spec words it, fails: [unsigned int] neither translates nor
    raises the unsupported-type error; the assertion stops the run. *)
Lemma type_to_ctypes_unsigned_int :
  type_to_ctypes
    (c_ast.TypeDecl (Some "count") []
       (c_ast.IdentifierType ["unsigned"; "int"]))
    false
  = Err AssertionError /\
  ~ translated_or_unsupported
      (type_to_ctypes
         (c_ast.TypeDecl (Some "count") []
            (c_ast.IdentifierType ["unsigned"; "int"]))
         false).
Proof.
  split; [reflexivity |].
  intros [[s H] | [msg H]]; simpl in H; discriminate.
Qed.

(** A bare identifier type is translated from its first word, the others
    are not looked at: this is the underlying type of
    [typedef unsigned int rascal_count_t], which [visit_Typedef] stores
    without its [TypeDecl]. *)
Lemma type_to_ctypes_bare_unsigned_int :
  type_to_ctypes (c_ast.IdentifierType ["unsigned"; "int"]) false
  = Ok "ctypes.c_unsigned".
Proof. reflexivity. Qed.

(** Off the grammar and past the dispatch, a union and a variadic function
    type raise neither of the above: reading the name of the one and the
    type of the [...] of the other raises [AttributeError]. *)
Lemma type_to_ctypes_union :
  type_to_ctypes
    (c_ast.TypeDecl (Some "data") [] (c_ast.Union (Some "payload") None))
    false
  = Err AttributeError /\
  type_to_ctypes
    (c_ast.FuncDecl
       (Some [c_ast.Decl (Some "format")
                (c_ast.PtrDecl []
                   (c_ast.TypeDecl (Some "format") ["const"]
                      (c_ast.IdentifierType ["char"]))) None;
              c_ast.EllipsisParam])
       (c_ast.TypeDecl (Some "log") [] (c_ast.IdentifierType ["void"])))
    false
  = Err AttributeError.
Proof. split; reflexivity. Qed.

(* ================================================================== *)
(** ** The function signatures *)

(** C6. A function whose only parameter is [void] gets an empty [argtypes]
    list, and so does the declaration [f(void)] once collected; any other
    function gets the translations of its parameter types, one for each
    parameter and in the order of declaration (or the exception of the
    first one that fails to translate). *)
Theorem function_argtypes_void (function : Function.t) :
  (forall type,
     Function.args function = [type] -> is_void type = true ->
     function_argtypes function = Ok []) /\
  ((forall type, Function.args function = [type] -> names_void type = false) ->
   function_argtypes function
   = mapM (fun arg => type_to_ctypes arg false) (Function.args function) /\
   (forall args,
      function_argtypes function = Ok args ->
      Forall2 (fun arg translated => type_to_ctypes arg false = Ok translated)
        (Function.args function) args)) /\
  (forall self name declname quals restype bitsize,
     startswith name "rascal_" = true ->
     let void := c_ast.TypeDecl declname quals (c_ast.IdentifierType ["void"]) in
     let collected :=
       {| Function.name := name; Function.restype := restype;
          Function.args := [void] |} in
     visit self
       (c_ast.Decl (Some name)
          (c_ast.FuncDecl (Some [c_ast.Typename None void]) restype) bitsize)
     = Ok (set_functions self (functions self ++ [collected])%list) /\
     function_argtypes collected = Ok []).
Proof.
  assert (Hvoid : forall type,
             Function.args function = [type] -> names_void type = true ->
             function_argtypes function = Ok []).
  { intros type Hargs Hv. unfold function_argtypes. rewrite Hargs.
    cbn [mapM]. rewrite (proj2 (type_to_ctypes_None type false) Hv).
    reflexivity. }
  split; [| split].
  - intros type Hargs Hv. apply (Hvoid type Hargs).
    apply is_void_names_void. exact Hv.
  - intros Hnot.
    assert (E : function_argtypes function
                = mapM (fun arg => type_to_ctypes arg false)
                    (Function.args function)).
    { unfold function_argtypes.
      destruct (mapM (fun arg => type_to_ctypes arg false)
                  (Function.args function)) as [args | e] eqn:Em;
        cbn [bind]; [| reflexivity].
      destruct (list_string_eqb args ["None"]) eqn:El; [| reflexivity].
      apply list_string_eqb_true in El. subst args.
      apply mapM_Ok_Forall2 in Em.
      inversion Em as [| type s l l' Hty Hrest E1 E2]; subst.
      inversion Hrest; subst.
      apply type_to_ctypes_None in Hty.
      rewrite (Hnot type) in Hty; [discriminate | congruence]. }
    split; [exact E |].
    intros args Hargs. rewrite E in Hargs.
    apply mapM_Ok_Forall2 in Hargs. exact Hargs.
  - intros self name declname quals restype bitsize Hp void collected.
    split.
    + apply visit_Decl_function; [exact Hp | reflexivity].
    + reflexivity.
Qed.

Lemma function_argtypes_void_witness :
  function_argtypes
    {| Function.name := "rascal_last_error";
       Function.restype :=
         c_ast.PtrDecl []
           (c_ast.TypeDecl (Some "rascal_last_error") ["const"]
              (c_ast.IdentifierType ["char"]));
       Function.args :=
         [c_ast.TypeDecl None [] (c_ast.IdentifierType ["void"])] |}
  = Ok [] /\
  function_argtypes
    {| Function.name := "rascal_set_logging_callback";
       Function.restype :=
         c_ast.TypeDecl (Some "rascal_set_logging_callback") []
           (c_ast.IdentifierType ["rascal_status_t"]);
       Function.args :=
         [c_ast.TypeDecl (Some "level") [] (c_ast.IdentifierType ["int32_t"]);
          c_ast.PtrDecl []
            (c_ast.TypeDecl (Some "message") ["const"]
               (c_ast.IdentifierType ["char"]))] |}
  = Ok ["ctypes.c_int32"; "ctypes.c_char_p"].
Proof.
  split.
  - apply (proj1 (function_argtypes_void _)
             (c_ast.TypeDecl None [] (c_ast.IdentifierType ["void"])));
      reflexivity.
  - refine (eq_trans (proj1 (proj1 (proj2 (function_argtypes_void _)) _)) _);
      [intros type H; discriminate | reflexivity].
Defined.

(** C7. The return type written for a function is the checking adapter
    [_check_rascal_status_t] if and only if the translation of its C return
    type is [rascal_status_t]; any other translation is written as it
    is. *)
Theorem function_restype_status (function : Function.t) :
  (type_to_ctypes (Function.restype function) false = Ok "rascal_status_t" ->
   function_restype function = Ok "_check_rascal_status_t") /\
  (forall restype,
     type_to_ctypes (Function.restype function) false = Ok restype ->
     restype <> "rascal_status_t" ->
     function_restype function = Ok restype) /\
  (forall written,
     function_restype function = Ok written ->
     (written = "_check_rascal_status_t" <->
      type_to_ctypes (Function.restype function) false
      = Ok "rascal_status_t")).
Proof.
  unfold function_restype. split; [| split].
  - intros ->. reflexivity.
  - intros restype -> NE. cbn [bind].
    destruct (String.eqb_spec restype "rascal_status_t");
      [contradiction | reflexivity].
  - intros written H.
    destruct (type_to_ctypes (Function.restype function) false)
      as [restype | e] eqn:E; cbn [bind] in H; [| discriminate].
    destruct (String.eqb_spec restype "rascal_status_t") as [-> | NE].
    + injection H as <-. split; reflexivity.
    + injection H as <-. split.
      * intros ->. apply type_to_ctypes_head in E. discriminate.
      * intros H. injection H as ->. contradiction.
Qed.

Lemma function_restype_status_witness :
  function_restype
    {| Function.name := "rascal_calculator_free";
       Function.restype :=
         c_ast.TypeDecl (Some "rascal_calculator_free") []
           (c_ast.IdentifierType ["rascal_status_t"]);
       Function.args := [] |}
  = Ok "_check_rascal_status_t" /\
  function_restype
    {| Function.name := "rascal_last_error";
       Function.restype :=
         c_ast.PtrDecl []
           (c_ast.TypeDecl (Some "rascal_last_error") ["const"]
              (c_ast.IdentifierType ["char"]));
       Function.args := [] |}
  = Ok "ctypes.c_char_p".
Proof.
  split.
  - apply (proj1 (function_restype_status
             {| Function.name := "rascal_calculator_free";
                Function.restype :=
                  c_ast.TypeDecl (Some "rascal_calculator_free") []
                    (c_ast.IdentifierType ["rascal_status_t"]);
                Function.args := [] |})).
    reflexivity.
  - apply (proj1 (proj2 (function_restype_status
             {| Function.name := "rascal_last_error";
                Function.restype :=
                  c_ast.PtrDecl []
                    (c_ast.TypeDecl (Some "rascal_last_error") ["const"]
                       (c_ast.IdentifierType ["char"]));
                Function.args := [] |})));
      [reflexivity | discriminate].
Defined.

(* ================================================================== *)
(** ** The run on the small header *)

(** The whole run on the small header: the module it writes. *)
Example generate_declarations_small_header :
  generate_declarations small_header_ast small_header_lines
  = (Some small_header_module, Ok tt).
Proof. vm_compute. reflexivity. Qed.

(* ================================================================== *)
(** * Further properties *)

(* ================================================================== *)
(** ** The name resolver, on the names it passes through *)

Lemma string_length_append (s1 s2 : string) :
  String.length (s1 ++ s2) = String.length s1 + String.length s2.
Proof. induction s1 as [| c s1 IH]; simpl; [reflexivity | now rewrite IH]. Qed.

Lemma startswith_eqs_not_rascal (name : string) :
  startswith name "eqs_" = true -> startswith name "rascal_" = false.
Proof.
  intros H. apply startswith_head in H. destruct H as [rest ->]. reflexivity.
Qed.

(** X1. The resolver returns a name as it is exactly for the names of the
    two libraries: every name that starts with [eqs_], and every name that
    starts with [rascal_] but [rascal_indexes_kind]. Any other name is
    rewritten. *)
Theorem c_type_name_unchanged (name : string) :
  c_type_name name = name <->
  (startswith name "rascal_" = true /\ name <> "rascal_indexes_kind") \/
  startswith name "eqs_" = true.
Proof.
  split.
  - unfold c_type_name.
    destruct (startswith name "rascal_") eqn:Hr.
    + destruct (String.eqb_spec name "rascal_indexes_kind") as [-> | NE];
        [discriminate | auto].
    + destruct (startswith name "eqs_") eqn:He; [auto |].
      intros H. exfalso.
      repeat match type of H with
             | context [String.eqb name ?s] =>
                 destruct (String.eqb_spec name s) as [-> | _];
                 [discriminate |]
             end.
      apply (f_equal String.length) in H.
      rewrite string_length_append in H. simpl in H. lia.
  - intros [[Hr NE] | He]; unfold c_type_name.
    + rewrite Hr. destruct (String.eqb_spec name "rascal_indexes_kind");
        [contradiction | reflexivity].
    + rewrite (startswith_eqs_not_rascal _ He), He. reflexivity.
Qed.

(* ================================================================== *)
(** ** Dicts *)

Lemma dict_set_keys {V : Type} (d : list (string * V)) (k : string) (v : V) :
  map fst (dict_set String.eqb d k v)
  = if in_dec string_dec k (map fst d) then map fst d
    else (map fst d ++ [k])%list.
Proof.
  induction d as [| [k' v'] d IH]; simpl; [reflexivity |].
  destruct (String.eqb_spec k' k) as [-> | NE]; simpl.
  - destruct (string_dec k k); [reflexivity | contradiction].
  - rewrite IH. destruct (string_dec k' k); [contradiction |].
    destruct (in_dec string_dec k (map fst d)); reflexivity.
Qed.

Lemma dict_set_In {V : Type} (d : list (string * V)) (k : string) (v : V) :
  forall k' v', In (k', v') (dict_set String.eqb d k v) ->
    (k', v') = (k, v) \/ In (k', v') d.
Proof.
  induction d as [| [k0 v0] d IH]; simpl; intros k' v' H.
  - destruct H as [H | []]. auto.
  - destruct (String.eqb_spec k0 k) as [-> | NE]; simpl in H.
    + destruct H as [H | H]; auto.
    + destruct H as [H | H]; [auto |].
      destruct (IH _ _ H); auto.
Qed.

Lemma dict_set_NoDup {V : Type} (d : list (string * V)) (k : string) (v : V) :
  NoDup (map fst d) -> NoDup (map fst (dict_set String.eqb d k v)).
Proof.
  intros Hnd. rewrite dict_set_keys.
  destruct (in_dec string_dec k (map fst d)) as [Hin | Hnin]; [exact Hnd |].
  apply NoDup_app; [exact Hnd | repeat constructor; intros [] | ].
  intros x Hx [<- | []]. contradiction.
Qed.

Lemma dict_set_other {V : Type} (d : list (string * V)) (k : string) (v : V) :
  forall k' v', k' <> k ->
    (In (k', v') (dict_set String.eqb d k v) <-> In (k', v') d).
Proof.
  intros k' v' NE. split.
  - intros H. destruct (dict_set_In _ _ _ _ _ H) as [E | H']; [| exact H'].
    injection E as E _. contradiction.
  - induction d as [| [k0 v0] d IH]; simpl; [tauto |].
    intros [E | H].
    + injection E as -> ->.
      destruct (String.eqb_spec k' k); [contradiction | left; reflexivity].
    + destruct (String.eqb_spec k0 k); right; [exact H | apply IH; exact H].
Qed.

Lemma dict_set_same {V : Type} (d : list (string * V)) (k : string) (v : V) :
  In (k, v) (dict_set String.eqb d k v).
Proof.
  induction d as [| [k0 v0] d IH]; simpl; [auto |].
  destruct (String.eqb_spec k0 k); [left; reflexivity | right; exact IH].
Qed.

Lemma NoDup_keys_functional {V : Type} (d : list (string * V)) :
  NoDup (map fst d) ->
  forall k v v', In (k, v) d -> In (k, v') d -> v = v'.
Proof.
  induction d as [| [k0 v0] d IH]; simpl; intros Hnd k v v' H H'; [contradiction |].
  inversion Hnd as [| ? ? Hnin Hnd']; subst.
  destruct H as [E | H], H' as [E' | H'].
  - congruence.
  - injection E as -> ->. exfalso. apply Hnin.
    apply (in_map fst) in H'. exact H'.
  - injection E' as -> ->. exfalso. apply Hnin.
    apply (in_map fst) in H. exact H.
  - eapply IH; eassumption.
Qed.

(** X2. Assigning [d[k] = v] in a dict whose keys are distinct: the keys
    stay distinct and keep their order, [k] going to the end if it is new
    and staying where it is if not; [k] is then bound to [v] and to nothing
    else, and every other key keeps its value. *)
Theorem dict_set_assigns {V : Type} (d : list (string * V)) (k : string)
  (v : V) :
  NoDup (map fst d) ->
  map fst (dict_set String.eqb d k v)
  = (if in_dec string_dec k (map fst d) then map fst d
     else (map fst d ++ [k])%list) /\
  NoDup (map fst (dict_set String.eqb d k v)) /\
  (forall v', In (k, v') (dict_set String.eqb d k v) <-> v' = v) /\
  (forall k' v', k' <> k ->
     (In (k', v') (dict_set String.eqb d k v) <-> In (k', v') d)).
Proof.
  intros Hnd. split; [apply dict_set_keys |].
  split; [apply dict_set_NoDup; exact Hnd |].
  split; [| apply dict_set_other].
  intros v'. split; [| intros ->; apply dict_set_same].
  intros H.
  apply (NoDup_keys_functional _ (dict_set_NoDup d k v Hnd) k); [exact H |].
  apply dict_set_same.
Qed.

Lemma dict_set_assigns_witness :
  NoDup (map fst [("RASCAL_SUCCESS", "0"); ("RASCAL_ERROR", "1")]) /\
  map fst (dict_set String.eqb
             [("RASCAL_SUCCESS", "0"); ("RASCAL_ERROR", "1")]
             "RASCAL_SUCCESS" "2")
  = ["RASCAL_SUCCESS"; "RASCAL_ERROR"].
Proof.
  assert (Hnd : NoDup (map fst [("RASCAL_SUCCESS", "0"); ("RASCAL_ERROR", "1")])).
  { repeat constructor; simpl; intuition discriminate. }
  split; [exact Hnd |].
  exact (proj1 (dict_set_assigns
                  [("RASCAL_SUCCESS", "0"); ("RASCAL_ERROR", "1")]
                  "RASCAL_SUCCESS" "2" Hnd)).
Defined.

(* ================================================================== *)
(** ** What [visit] keeps *)

Lemma extends_refl {A : Type} (l : list A) : extends l l.
Proof. exists []. now rewrite app_nil_r. Qed.

Lemma extends_trans {A : Type} (l1 l2 l3 : list A) :
  extends l1 l2 -> extends l2 l3 -> extends l1 l3.
Proof.
  intros [m1 ->] [m2 ->]. exists (m1 ++ m2)%list. now rewrite app_assoc.
Qed.

Lemma extends_app {A : Type} (l more : list A) : extends l (l ++ more)%list.
Proof. exists more. reflexivity. Qed.

Lemma grows_refl (self : AstVisitor) : grows self self.
Proof. repeat split; apply extends_refl. Qed.

Lemma grows_trans (s1 s2 s3 : AstVisitor) :
  grows s1 s2 -> grows s2 s3 -> grows s1 s3.
Proof.
  intros (F1 & E1 & S1 & T1 & D1) (F2 & E2 & S2 & T2 & D2).
  repeat split; try (eapply extends_trans; eassumption). congruence.
Qed.

Lemma foldM_grows {A : Type} (f : AstVisitor -> A -> result AstVisitor)
  (l : list A) :
  Forall (fun x => forall s s', f s x = Ok s' -> grows s s') l ->
  forall s s', foldM f l s = Ok s' -> grows s s'.
Proof.
  induction 1 as [| x l Hx Hl IH]; simpl; intros s s' H.
  - injection H as <-. apply grows_refl.
  - destruct (f s x) as [s1 | e] eqn:E; simpl in H; [| discriminate].
    eapply grows_trans; [apply (Hx _ _ E) | apply (IH _ _ H)].
Qed.

Lemma visit_Decl_grows (self self' : AstVisitor) (node : c_ast.node) :
  visit_Decl self node = Ok self' -> grows self self'.
Proof.
  unfold visit_Decl. intros H.
  apply bind_Ok_inv in H. destruct H as (n & _ & H).
  apply bind_Ok_inv in H. destruct H as (name & _ & H).
  destruct (startswith name "rascal_"); simpl in H;
    [| injection H as <-; apply grows_refl].
  apply bind_Ok_inv in H. destruct H as (type & _ & H).
  apply bind_Ok_inv in H. destruct H as (restype & _ & H).
  apply bind_Ok_inv in H. destruct H as (params & _ & H).
  apply bind_Ok_inv in H. destruct H as (function & _ & H).
  injection H as <-.
  repeat split; simpl; try apply extends_refl. apply extends_app.
Qed.

Lemma visit_Typedef_grows (self self' : AstVisitor) (node : c_ast.node) :
  visit_Typedef self node = Ok self' -> grows self self'.
Proof.
  unfold visit_Typedef. intros H.
  apply bind_Ok_inv in H. destruct H as (n & _ & H).
  apply bind_Ok_inv in H. destruct H as (name & _ & H).
  destruct (startswith name "rascal_"); simpl in H;
    [| injection H as <-; apply grows_refl].
  apply bind_Ok_inv in H. destruct H as (type & _ & H).
  apply bind_Ok_inv in H. destruct H as (underlying & _ & H).
  assert (Halias : grows self
            (set_types self
               (dict_set String.eqb (types self) name underlying))).
  { repeat split; simpl; try apply extends_refl.
    rewrite dict_set_keys.
    destruct (in_dec string_dec name (map fst (types self)));
      [apply extends_refl | apply extends_app]. }
  destruct underlying; try (injection H as <-; exact Halias).
  - (* Struct *)
    apply bind_Ok_inv in H. destruct H as (struct & _ & H).
    injection H as <-.
    repeat split; simpl; try apply extends_refl. apply extends_app.
  - (* Enum *)
    apply bind_Ok_inv in H. destruct H as (enumerators & _ & H).
    apply bind_Ok_inv in H. destruct H as (enum & _ & H).
    injection H as <-.
    repeat split; simpl; try apply extends_refl. apply extends_app.
Qed.

Lemma visit_children (self : AstVisitor) (children : option (list c_ast.node)) :
  visit self (c_ast.Compound children)
  = match children with
    | Some l => foldM visit l self
    | None => Ok self
    end.
Proof.
  destruct children as [l |]; [| reflexivity].
  change (visit self (c_ast.Compound (Some l)))
    with (visit self (c_ast.FileAST l)).
  apply visit_FileAST.
Qed.

Lemma visit_grows_aux (node : c_ast.node) :
  forall self self', visit self node = Ok self' -> grows self self'.
Proof.
  induction node using c_ast.node_ind'; intros self self' Hv;
    try (simpl in Hv; injection Hv as <-; apply grows_refl);
    try (simpl in Hv; eapply IHnode; exact Hv).
  - (* FuncDecl *)
    change (visit self (c_ast.FuncDecl a node))
      with (self <- visit self (c_ast.Compound a) ;; visit self node) in Hv.
    apply bind_Ok_inv in Hv. destruct Hv as (s1 & H1 & H2).
    eapply grows_trans; [| eapply IHnode; exact H2].
    rewrite visit_children in H1. destruct a as [l |].
    + eapply foldM_grows; [| exact H1]. exact H.
    + injection H1 as <-. apply grows_refl.
  - (* Struct *)
    change (visit self (c_ast.Struct n ds))
      with (visit self (c_ast.Compound ds)) in Hv.
    rewrite visit_children in Hv. destruct ds as [l |].
    + eapply foldM_grows; [| exact Hv]. exact H.
    + injection Hv as <-. apply grows_refl.
  - (* Union *)
    change (visit self (c_ast.Union n ds))
      with (visit self (c_ast.Compound ds)) in Hv.
    rewrite visit_children in Hv. destruct ds as [l |].
    + eapply foldM_grows; [| exact Hv]. exact H.
    + injection Hv as <-. apply grows_refl.
  - (* Decl *) eapply visit_Decl_grows. exact Hv.
  - (* Typedef *) eapply visit_Typedef_grows. exact Hv.
  - (* FuncDef *)
    change (visit self (c_ast.FuncDef node1 ps node2))
      with (self <- visit self node1 ;;
            self <- visit self node2 ;;
            visit self (c_ast.Compound ps)) in Hv.
    apply bind_Ok_inv in Hv. destruct Hv as (s1 & H1 & Hv).
    apply bind_Ok_inv in Hv. destruct Hv as (s2 & H2 & H3).
    eapply grows_trans; [eapply IHnode1; exact H1 |].
    eapply grows_trans; [eapply IHnode2; exact H2 |].
    rewrite visit_children in H3. destruct ps as [l |].
    + eapply foldM_grows; [| exact H3]. exact H.
    + injection H3 as <-. apply grows_refl.
  - (* Compound *)
    rewrite visit_children in Hv. destruct bs as [l |].
    + eapply foldM_grows; [| exact Hv]. exact H.
    + injection Hv as <-. apply grows_refl.
  - (* FileAST *)
    rewrite visit_FileAST in Hv.
    eapply foldM_grows; [| exact Hv]. exact H.
Qed.

(** X3. Visiting a tree never drops nor reorders what was collected
    before: the functions, enums and structs of the visitor it returns are
    those it was given, followed by the new ones; the aliases keep their
    names in order; the macro constants are not touched. *)
Theorem visit_grows (self self' : AstVisitor) (node : c_ast.node) :
  visit self node = Ok self' ->
  extends (functions self) (functions self') /\
  extends (enums self) (enums self') /\
  extends (structs self) (structs self') /\
  extends (map fst (types self)) (map fst (types self')) /\
  defines self' = defines self.
Proof. apply visit_grows_aux. Qed.

Lemma visit_grows_witness :
  visit AstVisitor_init
    (c_ast.FileAST
       [c_ast.Typedef "rascal_status_t" (tdecl "rascal_status_t" [] "int32_t")])
  = Ok (set_types AstVisitor_init
          [("rascal_status_t", c_ast.IdentifierType ["int32_t"])]) /\
  defines
    (set_types AstVisitor_init
       [("rascal_status_t", c_ast.IdentifierType ["int32_t"])])
  = defines AstVisitor_init.
Proof.
  split; [reflexivity |].
  exact (proj2 (proj2 (proj2 (proj2
           (visit_grows AstVisitor_init
              (c_ast.FileAST
                 [c_ast.Typedef "rascal_status_t"
                    (tdecl "rascal_status_t" [] "int32_t")])
              eq_refl))))).
Defined.

(* ================================================================== *)
(** ** The macro constants [parse] records *)

Lemma no_space_append (s : string) (c : ascii) :
  no_space s = true -> isspace c = false ->
  no_space (s ++ String c EmptyString) = true.
Proof.
  intros Hs Hc. induction s as [| c' s IH]; simpl in *.
  - rewrite Hc. reflexivity.
  - apply andb_true_iff in Hs. destruct Hs as [H1 H2].
    rewrite H1, (IH H2). reflexivity.
Qed.

Lemma split_from_tokens (s : string) :
  forall cur, no_space cur = true ->
    Forall (fun t => is_token t = true) (split_from cur s).
Proof.
  induction s as [| c s IH]; intros cur Hcur; simpl.
  - destruct cur; [constructor |]. constructor; [exact Hcur | constructor].
  - destruct (isspace c) eqn:Hc.
    + destruct cur; [apply IH; reflexivity |].
      constructor; [exact Hcur | apply IH; reflexivity].
    + apply IH. apply no_space_append; assumption.
Qed.

Lemma index_In {A : Type} (l : list A) (i : nat) (x : A) :
  index l i = Ok x -> nth_error l i = Some x.
Proof.
  unfold index. destruct (nth_error l i); [| discriminate].
  intros H; injection H as <-. reflexivity.
Qed.

Lemma parse_line_step (visitor visitor' : AstVisitor) (line : string) :
  parse_line visitor line = Ok visitor' ->
  functions visitor' = functions visitor /\
  enums visitor' = enums visitor /\
  structs visitor' = structs visitor /\
  types visitor' = types visitor /\
  (defines visitor' = defines visitor \/
   exists name value,
     defines visitor' = dict_set String.eqb (defines visitor) name value /\
     recorded_from [line] (name, value)).
Proof.
  unfold parse_line. intros H.
  destruct (contains "#define" line) eqn:Hc;
    [| injection H as <-; repeat split; auto].
  apply bind_Ok_inv in H. destruct H as (name & H1 & H).
  destruct (String.eqb_spec name "RASCALINE_H") as [E | NE];
    [injection H as <-; repeat split; auto |].
  apply bind_Ok_inv in H. destruct H as (value & H2 & H).
  injection H as <-. repeat split; try reflexivity.
  right. exists name, value. split; [reflexivity |].
  apply index_In in H1, H2.
  assert (Ht : Forall (fun t => is_token t = true) (split line))
    by (apply split_from_tokens; reflexivity).
  rewrite Forall_forall in Ht.
  exists line. simpl. repeat split; auto.
  - apply Ht. eapply nth_error_In. exact H1.
  - apply Ht. eapply nth_error_In. exact H2.
Qed.

Lemma recorded_from_incl (lines file : list string) (entry : string * string) :
  incl lines file -> recorded_from lines entry -> recorded_from file entry.
Proof.
  intros Hi (line & Hin & H). exists line. split; [apply Hi; exact Hin | exact H].
Qed.

Lemma foldM_parse_line (file : list string) (lines : list string) :
  incl lines file ->
  forall visitor visitor',
    foldM parse_line lines visitor = Ok visitor' ->
    functions visitor' = functions visitor /\
    enums visitor' = enums visitor /\
    structs visitor' = structs visitor /\
    types visitor' = types visitor /\
    (NoDup (map fst (defines visitor)) ->
     NoDup (map fst (defines visitor'))) /\
    (Forall (recorded_from file) (defines visitor) ->
     Forall (recorded_from file) (defines visitor')).
Proof.
  induction lines as [| line lines IH]; intros Hi visitor visitor' H; simpl in H.
  - injection H as <-. repeat split; auto.
  - apply bind_Ok_inv in H. destruct H as (v1 & H1 & H).
    apply parse_line_step in H1.
    destruct H1 as (F1 & E1 & S1 & T1 & D1).
    destruct (IH (fun x Hx => Hi x (or_intror Hx)) _ _ H)
      as (F & E & S & T & Hnd & Hrec).
    repeat split; try congruence.
    + intros Hnd0. apply Hnd.
      destruct D1 as [-> | (name & value & -> & _)];
        [exact Hnd0 | apply dict_set_NoDup; exact Hnd0].
    + intros Hrec0. apply Hrec.
      destruct D1 as [-> | (name & value & -> & Hr)]; [exact Hrec0 |].
      rewrite Forall_forall in *. intros [k v] Hin.
      destruct (dict_set_In _ _ _ _ _ Hin) as [-> | Hin']; [| auto].
      eapply recorded_from_incl; [| exact Hr].
      intros x [<- | []]. apply Hi. left. reflexivity.
Qed.

(** X4. What [parse] returns: the functions, enums, structs and aliases
    are those the visit of the tree collected, the scan of the lines adds
    none; the names of the macro constants are distinct; and each macro
    constant is the pair of the second and third tokens of a line of the
    header that holds [#define], both tokens being non-empty and free of
    whitespace, and the name not being the include guard [RASCALINE_H]. *)
Theorem parse_defines (ast : c_ast.node) (file : list string)
  (data : AstVisitor) :
  parse ast file = Ok data ->
  (exists visited,
     visit AstVisitor_init ast = Ok visited /\
     functions data = functions visited /\
     enums data = enums visited /\
     structs data = structs visited /\
     types data = types visited) /\
  NoDup (map fst (defines data)) /\
  ~ In "RASCALINE_H" (map fst (defines data)) /\
  Forall (recorded_from file) (defines data).
Proof.
  unfold parse. intros H.
  apply bind_Ok_inv in H. destruct H as (visited & Hv & H).
  pose proof (visit_grows_aux _ _ Hv) as (_ & _ & _ & _ & Hd).
  simpl in Hd.
  destruct (foldM_parse_line (incl_refl file) _ H)
    as (F & E & S & T & Hnd & Hrec).
  rewrite Hd in Hnd, Hrec.
  specialize (Hnd (NoDup_nil _)). specialize (Hrec (Forall_nil _)).
  split; [exists visited; auto |].
  split; [exact Hnd |]. split; [| exact Hrec].
  intros Hin. apply in_map_iff in Hin. destruct Hin as ([k v] & Hk & Hin).
  simpl in Hk. subst k.
  rewrite Forall_forall in Hrec.
  destruct (Hrec _ Hin) as (line & _ & _ & _ & _ & NE & _).
  apply NE. reflexivity.
Qed.

Lemma parse_defines_witness :
  parse small_header_ast small_header_lines
  = Ok (set_defines
          {| functions :=
               [{| Function.name := "rascal_last_error";
                   Function.restype :=
                     c_ast.PtrDecl [] (tdecl "rascal_last_error" ["const"] "char");
                   Function.args :=
                     [c_ast.TypeDecl None [] (c_ast.IdentifierType ["void"])] |};
                {| Function.name := "rascal_calculator_free";
                   Function.restype :=
                     tdecl "rascal_calculator_free" [] "rascal_status_t";
                   Function.args :=
                     [c_ast.PtrDecl []
                        (tdecl "calculator" [] "rascal_calculator_t")] |}];
             enums := [{| Enum.name := "rascal_indexes_kind";
                          Enum.values := [("RASCAL_INDEXES_FEATURES", "0");
                                          ("RASCAL_INDEXES_SAMPLES", "1")] |}];
             structs :=
               [{| Struct.name := "rascal_calculator_t";
                   Struct.members := [] |};
                {| Struct.name := "rascal_indexes_t";
                   Struct.members :=
                     [(Some "names",
                       c_ast.PtrDecl []
                         (c_ast.PtrDecl ["const"]
                            (tdecl "names" ["const"] "char")));
                      (Some "values",
                       c_ast.PtrDecl [] (tdecl "values" ["const"] "int32_t"));
                      (Some "size",
                       c_ast.ArrayDecl (tdecl "size" [] "uintptr_t")
                         (Some (c_ast.Constant "int" "2")))] |}];
             types := [("rascal_status_t", c_ast.IdentifierType ["int32_t"])];
             defines := [] |}
          [("RASCAL_SUCCESS", "0")]) /\
  ~ In "RASCALINE_H" (map fst [("RASCAL_SUCCESS", "0")]).
Proof.
  split; [reflexivity |].
  exact (proj1 (proj2 (proj2
           (parse_defines small_header_ast small_header_lines eq_refl)))).
Defined.

(* ================================================================== *)
(** ** Function declarations *)

Lemma mapM_attr_type_Err (params : list c_ast.node) (e : exn) :
  mapM attr_type params = Err e -> e = AttributeError.
Proof.
  induction params as [| p params IH]; simpl; [discriminate |].
  destruct (attr_type p) as [ty | e'] eqn:E; simpl.
  - destruct (mapM attr_type params) as [tys | e'']; simpl;
      [discriminate |].
    intros H; injection H as <-. apply IH. reflexivity.
  - intros H; injection H as <-. destruct p; simpl in E; congruence.
Qed.

(** X5. A declaration whose name starts with [rascal_] is collected if
    and only if it declares a function with a parameter list, each entry of
    which has a type (a variadic [...] has none); in every other case, a
    variable or a function declared without a prototype among them, the
    visit raises [AttributeError]. So does a declaration without a name. *)
Theorem visit_Decl_succeeds
  (self : AstVisitor) (name : string) (type : c_ast.node)
  (bitsize : option c_ast.expr) :
  startswith name "rascal_" = true ->
  ((exists self', visit self (c_ast.Decl (Some name) type bitsize) = Ok self')
   <->
   (exists params restype tys,
      type = c_ast.FuncDecl (Some params) restype /\
      mapM attr_type params = Ok tys)) /\
  (forall e,
     visit self (c_ast.Decl (Some name) type bitsize) = Err e ->
     e = AttributeError) /\
  visit self (c_ast.Decl None type bitsize) = Err AttributeError.
Proof.
  intros Hp. split; [| split; [| reflexivity]].
  - split.
    + intros [self' H]. simpl in H. unfold visit_Decl in H. simpl in H.
      rewrite Hp in H. simpl in H.
      destruct type; try discriminate.
      destruct args as [params |]; [| discriminate].
      simpl in H. rewrite foldM_add_arg in H.
      destruct (mapM attr_type params) as [tys | e] eqn:E; [| discriminate].
      exists params, type, tys. auto.
    + intros (params & restype & tys & -> & Htys).
      eexists. apply visit_Decl_function; eassumption.
  - intros e H. simpl in H. unfold visit_Decl in H. simpl in H.
    rewrite Hp in H. simpl in H.
    destruct type; try (simpl in H; congruence).
    destruct args as [params |]; [| simpl in H; congruence].
    simpl in H. rewrite foldM_add_arg in H.
    destruct (mapM attr_type params) as [tys | e'] eqn:E; [discriminate |].
    simpl in H. injection H as <-. eapply mapM_attr_type_Err. exact E.
Qed.

Lemma visit_Decl_succeeds_witness :
  (exists self',
     visit AstVisitor_init
       (c_ast.Decl (Some "rascal_last_error")
          (c_ast.FuncDecl
             (Some [c_ast.Typename None
                      (c_ast.TypeDecl None [] (c_ast.IdentifierType ["void"]))])
             (c_ast.PtrDecl [] (tdecl "rascal_last_error" ["const"] "char")))
          None)
     = Ok self').
Proof.
  apply (proj1 (visit_Decl_succeeds AstVisitor_init "rascal_last_error"
                  (c_ast.FuncDecl
                     (Some [c_ast.Typename None
                              (c_ast.TypeDecl None []
                                 (c_ast.IdentifierType ["void"]))])
                     (c_ast.PtrDecl []
                        (tdecl "rascal_last_error" ["const"] "char")))
                  None eq_refl)).
  eexists _, _, _. split; reflexivity.
Defined.

Lemma mapM_attr_type_Typename (args : list c_ast.node) :
  mapM attr_type (map (fun arg => c_ast.Typename None arg) args) = Ok args.
Proof.
  induction args as [| a args IH]; simpl; [reflexivity |].
  rewrite IH. reflexivity.
Qed.

Lemma foldM_app {A S : Type} (f : S -> A -> result S) (l1 l2 : list A) :
  forall s, foldM f (l1 ++ l2)%list s = (s' <- foldM f l1 s ;; foldM f l2 s').
Proof.
  induction l1 as [| x l1 IH]; intros s; simpl; [reflexivity |].
  destruct (f s x) as [s1 | e]; simpl; [apply IH | reflexivity].
Qed.

(** X6. Visiting two lists of top-level nodes one after the other is
    visiting their concatenation: the first is visited, and, if that raises
    nothing, the second is visited from the visitor the first one gave. *)
Theorem visit_FileAST_app (self : AstVisitor) (ext1 ext2 : list c_ast.node) :
  visit self (c_ast.FileAST (ext1 ++ ext2)%list)
  = (visited <- visit self (c_ast.FileAST ext1) ;;
     visit visited (c_ast.FileAST ext2)).
Proof.
  rewrite !visit_FileAST, foldM_app.
  destruct (foldM visit ext1 self) as [s |]; cbn [bind];
    [rewrite visit_FileAST |]; reflexivity.
Qed.

(** X7. Collecting is the inverse of declaring: the visit of the
    declarations of a list of functions whose names start with [rascal_]
    appends these functions, as they are and in their order, to the
    functions of the visitor, and changes nothing else. *)
Theorem visit_declarations (fs : list Function.t) :
  Forall (fun f => startswith (Function.name f) "rascal_" = true) fs ->
  forall self,
    visit self (c_ast.FileAST (map declaration fs))
    = Ok (set_functions self (functions self ++ fs)%list).
Proof.
  intros Hfs.
  induction Hfs as [| f fs Hf _ IH]; intros self.
  - simpl. rewrite app_nil_r. destruct self; reflexivity.
  - rewrite visit_FileAST. cbn [map foldM]. unfold declaration at 1.
    rewrite (@visit_Decl_function self _ _ _ None (Function.args f) Hf
               (mapM_attr_type_Typename _)).
    cbn [bind]. rewrite <- visit_FileAST, IH. unfold set_functions. simpl.
    rewrite <- app_assoc. destruct f; reflexivity.
Qed.

Lemma visit_declarations_witness :
  visit AstVisitor_init
    (c_ast.FileAST
       (map declaration
          [{| Function.name := "rascal_last_error";
              Function.restype :=
                c_ast.PtrDecl [] (tdecl "rascal_last_error" ["const"] "char");
              Function.args :=
                [c_ast.TypeDecl None [] (c_ast.IdentifierType ["void"])] |}]))
  = Ok (set_functions AstVisitor_init
          ([] ++
           [{| Function.name := "rascal_last_error";
               Function.restype :=
                 c_ast.PtrDecl [] (tdecl "rascal_last_error" ["const"] "char");
               Function.args :=
                 [c_ast.TypeDecl None [] (c_ast.IdentifierType ["void"])] |}])%list).
Proof.
  apply (@visit_declarations
           [{| Function.name := "rascal_last_error";
               Function.restype :=
                 c_ast.PtrDecl [] (tdecl "rascal_last_error" ["const"] "char");
               Function.args :=
                 [c_ast.TypeDecl None [] (c_ast.IdentifierType ["void"])] |}]).
  repeat constructor.
Defined.

(* ================================================================== *)
(** ** Structs *)

Lemma option_string_eqb_spec (a b : option string) :
  reflect (a = b) (option_string_eqb a b).
Proof.
  destruct a as [x |], b as [y |]; simpl; try (constructor; congruence).
  destruct (String.eqb_spec x y); constructor; congruence.
Qed.

Section DictFacts.
Variables K V : Type.
Variable eqb : K -> K -> bool.
Hypothesis eqb_spec : forall a b, reflect (a = b) (eqb a b).

Lemma dict_set_new (d : list (K * V)) (k : K) (v : V) :
  ~ In k (map fst d) -> dict_set eqb d k v = (d ++ [(k, v)])%list.
Proof.
  induction d as [| [k' v'] d IH]; simpl; intros Hk; [reflexivity |].
  destruct (eqb_spec k' k) as [E | NE]; [exfalso; auto |].
  rewrite IH; [reflexivity | tauto].
Qed.

Lemma fold_dict_set_distinct (l : list (K * V)) :
  forall d,
    NoDup (map fst (d ++ l)%list) ->
    fold_left (fun d '(n, v) => dict_set eqb d n v) l d = (d ++ l)%list.
Proof.
  induction l as [| [k v] l IH]; intros d Hnd; simpl.
  - rewrite app_nil_r. reflexivity.
  - rewrite dict_set_new.
    + rewrite IH; rewrite <- app_assoc; [reflexivity | exact Hnd].
    + rewrite map_app in Hnd. simpl in Hnd.
      apply NoDup_remove_2 in Hnd. intros Hin. apply Hnd.
      apply in_or_app. left. exact Hin.
Qed.
End DictFacts.

(** The loop over the members, as reading them all, then storing them. *)
Lemma foldM_add_member (members : list c_ast.node) :
  forall struct,
    foldM (fun s member =>
             n <- attr_name member ;;
             ty <- attr_type member ;;
             Ok (Struct.add_member s n ty))
          members struct
    = fields <- mapM member_field members ;;
      Ok {| Struct.name := Struct.name struct;
            Struct.members :=
              fold_left (fun d '(n, ty) => dict_set option_string_eqb d n ty)
                fields (Struct.members struct) |}.
Proof.
  induction members as [| m members IH]; intros struct; simpl.
  - destruct struct; reflexivity.
  - unfold member_field at 1.
    destruct (attr_name m) as [n |]; simpl; [| reflexivity].
    destruct (attr_type m) as [ty |]; simpl; [| reflexivity].
    rewrite IH. simpl.
    destruct (mapM member_field members); reflexivity.
Qed.

(** X8. A typedef of a struct whose name starts with [rascal_] is
    collected under the typedef's name, whatever the tag of the struct,
    with the name and the type of each member in the order of the members
    when their names are distinct; a member that has no name or no type
    stops the visit. A struct without members is collected with none. *)
Theorem visit_Typedef_struct
  (self : AstVisitor) (name : string) (declname tag : option string)
  (quals : list string) (decls : option (list c_ast.node)) :
  startswith name "rascal_" = true ->
  let node :=
    c_ast.Typedef name (c_ast.TypeDecl declname quals (c_ast.Struct tag decls)) in
  (forall fields,
     mapM member_field (Struct_children decls) = Ok fields ->
     NoDup (map fst fields) ->
     visit self node
     = Ok (set_structs self
             (structs self ++
                [{| Struct.name := name; Struct.members := fields |}])%list)) /\
  (forall e,
     mapM member_field (Struct_children decls) = Err e ->
     visit self node = Err e) /\
  (decls = None \/ decls = Some [] ->
   visit self node
   = Ok (set_structs self
           (structs self ++
              [{| Struct.name := name; Struct.members := [] |}])%list)).
Proof.
  intros Hp node.
  assert (E : visit self node
              = (struct <- (fields <- mapM member_field (Struct_children decls) ;;
                            Ok {| Struct.name := name;
                                  Struct.members :=
                                    fold_left
                                      (fun d '(n, ty) =>
                                         dict_set option_string_eqb d n ty)
                                      fields [] |}) ;;
                 Ok (set_structs self (structs self ++ [struct])%list))).
  { unfold node. simpl. unfold visit_Typedef. simpl. rewrite Hp. simpl.
    rewrite foldM_add_member. reflexivity. }
  rewrite E. split; [| split].
  - intros fields -> Hnd. simpl.
    rewrite (@fold_dict_set_distinct _ _ _ option_string_eqb_spec);
      [reflexivity |].
    exact Hnd.
  - intros e ->. reflexivity.
  - intros [-> | ->]; reflexivity.
Qed.

Lemma visit_Typedef_struct_witness :
  visit AstVisitor_init
    (c_ast.Typedef "rascal_pair_t"
       (c_ast.TypeDecl (Some "rascal_pair_t") []
          (c_ast.Struct (Some "rascal_pair_t")
             (Some [c_ast.Decl (Some "first") (tdecl "first" [] "uintptr_t") None;
                    c_ast.Decl (Some "second") (tdecl "second" [] "uintptr_t")
                      None]))))
  = Ok (set_structs AstVisitor_init
          ([] ++
           [{| Struct.name := "rascal_pair_t";
               Struct.members :=
                 [(Some "first", tdecl "first" [] "uintptr_t");
                  (Some "second", tdecl "second" [] "uintptr_t")] |}])%list).
Proof.
  apply (proj1 (visit_Typedef_struct AstVisitor_init "rascal_pair_t"
                  (Some "rascal_pair_t") (Some "rascal_pair_t") []
                  (Some [c_ast.Decl (Some "first")
                           (tdecl "first" [] "uintptr_t") None;
                         c_ast.Decl (Some "second")
                           (tdecl "second" [] "uintptr_t") None])
                  eq_refl)).
  - reflexivity.
  - repeat constructor; simpl; intuition discriminate.
Defined.

(* ================================================================== *)
(** ** Type aliases *)

Lemma visit_Typedef_stores (self : AstVisitor) (name : string)
  (type underlying : c_ast.node) :
  startswith name "rascal_" = true ->
  attr_type type = Ok underlying ->
  is_tagged underlying = false ->
  visit self (c_ast.Typedef name type)
  = Ok (set_types self (dict_set String.eqb (types self) name underlying)).
Proof.
  intros Hp Ht Hu. simpl. unfold visit_Typedef. simpl. rewrite Hp. simpl.
  rewrite Ht. simpl. destruct underlying; try reflexivity; discriminate.
Qed.

(** X9. A typedef whose name starts with [rascal_] and that is neither of
    a struct nor of an enum binds its name to the node under its
    declarator, an earlier alias of that name being replaced. For a typedef
    of a type with a one-word name and for a typedef of a pointer to
    function, the translation of what is stored is the translation of the
    typedef's own type. *)
Theorem visit_Typedef_alias (self : AstVisitor) (name : string) :
  startswith name "rascal_" = true ->
  (forall type underlying,
     attr_type type = Ok underlying ->
     is_tagged underlying = false ->
     visit self (c_ast.Typedef name type)
     = Ok (set_types self (dict_set String.eqb (types self) name underlying))) /\
  (forall declname quals n,
     visit self
       (c_ast.Typedef name
          (c_ast.TypeDecl declname quals (c_ast.IdentifierType [n])))
     = Ok (set_types self
             (dict_set String.eqb (types self) name (c_ast.IdentifierType [n])))
     /\
     type_to_ctypes (c_ast.IdentifierType [n]) false
     = type_to_ctypes
         (c_ast.TypeDecl declname quals (c_ast.IdentifierType [n])) false) /\
  (forall quals args restype,
     visit self
       (c_ast.Typedef name (c_ast.PtrDecl quals (c_ast.FuncDecl args restype)))
     = Ok (set_types self
             (dict_set String.eqb (types self) name
                (c_ast.FuncDecl args restype)))
     /\
     type_to_ctypes (c_ast.FuncDecl args restype) false
     = type_to_ctypes (c_ast.PtrDecl quals (c_ast.FuncDecl args restype)) false).
Proof.
  intros Hp. split; [| split].
  - intros type underlying. apply visit_Typedef_stores. exact Hp.
  - intros declname quals n. split; [| reflexivity].
    apply visit_Typedef_stores; [exact Hp | reflexivity | reflexivity].
  - intros quals args restype. split; [| reflexivity].
    apply visit_Typedef_stores; [exact Hp | reflexivity | reflexivity].
Qed.

Lemma visit_Typedef_alias_witness :
  visit AstVisitor_init
    (c_ast.Typedef "rascal_status_t" (tdecl "rascal_status_t" [] "int32_t"))
  = Ok (set_types AstVisitor_init
          (dict_set String.eqb (types AstVisitor_init) "rascal_status_t"
             (c_ast.IdentifierType ["int32_t"]))).
Proof.
  apply (proj1 (proj2 (@visit_Typedef_alias AstVisitor_init
                         "rascal_status_t" eq_refl))
           (Some "rascal_status_t") [] "int32_t").
Defined.

(** X10. A typedef of a pointer to a named type, or of an array, loses
    that pointer or array: what is stored under the name is the pointee,
    or the element. Its translation is the resolved name of the pointee,
    where the translation of the typedef's own type is a [POINTER(...)]
    of it (a [c_void_p] or [c_char_p] for [void] and [char]). *)
Theorem visit_Typedef_pointer
  (self : AstVisitor) (name : string) (quals : list string)
  (pointee : c_ast.node) (n : string) :
  startswith name "rascal_" = true ->
  _typedecl_name pointee = Ok (Some n) ->
  visit self (c_ast.Typedef name (c_ast.PtrDecl quals pointee))
  = Ok (set_types self (dict_set String.eqb (types self) name pointee)) /\
  (forall dim,
     visit self (c_ast.Typedef name (c_ast.ArrayDecl pointee dim))
     = Ok (set_types self (dict_set String.eqb (types self) name pointee))) /\
  type_to_ctypes pointee false = Ok (c_type_name n) /\
  type_to_ctypes (c_ast.PtrDecl quals pointee) false
  = Ok (if String.eqb n "void" then "ctypes.c_void_p"
        else if String.eqb n "char" then "ctypes.c_char_p"
        else "POINTER(" ++ c_type_name n ++ ")") /\
  type_to_ctypes (c_ast.PtrDecl quals pointee) false
  <> type_to_ctypes pointee false.
Proof.
  intros Hp Hn.
  destruct (_typedecl_name_TypeDecl _ Hn) as (declname & cquals & inner & ->).
  assert (Hptr : type_to_ctypes
                   (c_ast.PtrDecl quals (c_ast.TypeDecl declname cquals inner))
                   false
                 = Ok (if String.eqb n "void" then "ctypes.c_void_p"
                       else if String.eqb n "char" then "ctypes.c_char_p"
                       else "POINTER(" ++ c_type_name n ++ ")")).
  { cbn [type_to_ctypes]. rewrite Hn. cbn [bind]. rewrite !name_is_Some.
    destruct (String.eqb n "void"); [reflexivity |].
    destruct (String.eqb n "char"); reflexivity. }
  assert (Hbare : type_to_ctypes (c_ast.TypeDecl declname cquals inner) false
                  = Ok (c_type_name n)).
  { cbn [type_to_ctypes]. rewrite Hn. reflexivity. }
  split; [apply visit_Typedef_stores; [exact Hp | reflexivity | reflexivity] |].
  split; [intros dim;
          apply visit_Typedef_stores; [exact Hp | reflexivity | reflexivity] |].
  split; [exact Hbare |]. split; [exact Hptr |].
  rewrite Hptr, Hbare. intros E. injection E as E.
  destruct (String.eqb_spec n "void") as [-> | _]; [discriminate |].
  destruct (String.eqb_spec n "char") as [-> | _]; [discriminate |].
  apply (f_equal String.length) in E. simpl in E.
  rewrite !string_length_append in E. simpl in E. lia.
Qed.

Lemma visit_Typedef_pointer_witness :
  visit AstVisitor_init
    (c_ast.Typedef "rascal_values_t"
       (c_ast.PtrDecl [] (tdecl "rascal_values_t" [] "double")))
  = Ok (set_types AstVisitor_init
          (dict_set String.eqb (types AstVisitor_init) "rascal_values_t"
             (tdecl "rascal_values_t" [] "double"))).
Proof.
  apply (proj1 (@visit_Typedef_pointer AstVisitor_init
                  "rascal_values_t" []
                  (tdecl "rascal_values_t" [] "double")
                  "double" eq_refl eq_refl)).
Defined.

(* ================================================================== *)
(** ** The translator and its context *)

Lemma same_outcome_refl {A : Type} (r : result A) : same_outcome r r.
Proof. destruct r; simpl; auto. Qed.

Lemma same_outcome_bind {A B A' B' : Type}
  (m : result A) (m' : result A') (k : A -> result B) (k' : A' -> result B') :
  same_outcome m m' ->
  (forall a a', same_outcome (k a) (k' a')) ->
  same_outcome (bind m k) (bind m' k').
Proof.
  destruct m, m'; simpl; intros H Hk; try contradiction; auto.
Qed.

Lemma same_outcome_mapM {A B B' : Type} (f : A -> result B)
  (g : A -> result B') (l : list A) :
  Forall (fun x => same_outcome (f x) (g x)) l ->
  same_outcome (mapM f l) (mapM g l).
Proof.
  induction 1 as [| x l Hx _ IH]; simpl; [exact I |].
  apply same_outcome_bind; [exact Hx |]. intros y y'.
  apply same_outcome_bind; [exact IH |]. intros; exact I.
Qed.

Lemma type_to_ctypes_same_outcome (type : c_ast.node) :
  same_outcome (type_to_ctypes type true) (type_to_ctypes type false) /\
  (forall ty, attr_type type = Ok ty ->
     same_outcome (type_to_ctypes ty true) (type_to_ctypes ty false)).
Proof.
  induction type using c_ast.node_ind';
    (split; [| intros ty Hty]);
    try (simpl in Hty; discriminate);
    try (injection Hty as <-; apply (proj1 IHtype));
    try apply same_outcome_refl.
  - (* PtrDecl *)
    destruct type; try apply same_outcome_refl.
    + destruct type; try apply same_outcome_refl.
      cbn [type_to_ctypes].
      destruct (_typedecl_name (c_ast.TypeDecl declname quals0 type))
        as [name | e]; cbn [bind]; [| reflexivity].
      destruct (name_is name "char"); [exact I |].
      destruct (c_type_name_dyn name); cbn [bind]; [exact I | reflexivity].
    + rewrite !type_to_ctypes_PtrDecl_FuncDecl. apply (proj1 IHtype).
  - (* FuncDecl *)
    rewrite !type_to_ctypes_FuncDecl. unfold funcdecl_to_ctypes, cfunctype.
    cbn [attr_type attr_args_params bind].
    apply same_outcome_bind; [apply (proj1 IHtype) |]. intros r r'.
    apply same_outcome_bind; [| intros; exact I].
    destruct a as [params |]; cbn [bind]; [| reflexivity].
    apply same_outcome_mapM. simpl in H.
    eapply Forall_impl; [| exact H]. intros p [_ Hp].
    destruct (attr_type p) as [ty |] eqn:E; cbn [bind]; [| reflexivity].
    apply Hp. reflexivity.
Qed.

(** X11. Asking for the [ndpointer] convention never changes whether a
    type translates, nor the exception it raises when it does not: a struct
    field fails to translate exactly when the same type fails as a
    parameter, and in the same way. *)
Theorem type_to_ctypes_context (type : c_ast.node) :
  (forall e,
     type_to_ctypes type true = Err e <-> type_to_ctypes type false = Err e) /\
  ((exists s, type_to_ctypes type true = Ok s) <->
   (exists s, type_to_ctypes type false = Ok s)).
Proof.
  pose proof (proj1 (type_to_ctypes_same_outcome type)) as H.
  destruct (type_to_ctypes type true) as [s | e],
           (type_to_ctypes type false) as [s' | e'];
    simpl in H; try contradiction.
  - split; [intros e; split; discriminate |].
    split; intros _; eauto.
  - subst e'. split; [intros e0; tauto |].
    split; intros [s H]; discriminate.
Qed.

Lemma Forall2_mapM {A B : Type} (f : A -> result B) (l : list A)
  (l' : list B) :
  Forall2 (fun x y => f x = Ok y) l l' -> mapM f l = Ok l'.
Proof.
  induction 1 as [| x y l l' Hxy _ IH]; simpl; [reflexivity |].
  rewrite Hxy, IH. reflexivity.
Qed.

(** X12. A function type translates if and only if it has a parameter
    list, its return type translates and the type of each parameter does:
    the translation is then [CFUNCTYPE(] return type, parameters [)], one
    text for each parameter and in their order, a lone [void] parameter
    included. A pointer to the function type translates the same. *)
Theorem type_to_ctypes_callback
  (args : option (list c_ast.node)) (restype : c_ast.node)
  (ndpointer : bool) (s : string) :
  (type_to_ctypes (c_ast.FuncDecl args restype) ndpointer = Ok s <->
   exists params r texts,
     args = Some params /\
     type_to_ctypes restype ndpointer = Ok r /\
     Forall2 (fun p text =>
                exists ty, attr_type p = Ok ty /\
                           type_to_ctypes ty ndpointer = Ok text)
       params texts /\
     s = "CFUNCTYPE(" ++ r ++ ", " ++ join ", " texts ++ ")") /\
  (forall quals,
     type_to_ctypes (c_ast.PtrDecl quals (c_ast.FuncDecl args restype)) ndpointer
     = type_to_ctypes (c_ast.FuncDecl args restype) ndpointer).
Proof.
  split; [| reflexivity].
  rewrite type_to_ctypes_FuncDecl. unfold funcdecl_to_ctypes, cfunctype.
  cbn [attr_type attr_args_params bind]. split.
  - intros H.
    apply bind_Ok_inv in H. destruct H as (r & Hr & H).
    apply bind_Ok_inv in H. destruct H as (texts & Ht & H).
    injection H as <-.
    destruct args as [params |]; cbn [bind] in Ht; [| discriminate].
    exists params, r, texts. repeat split; auto.
    apply mapM_Ok_Forall2 in Ht.
    eapply Forall2_impl; [| exact Ht]. intros p text Hp. simpl in Hp.
    destruct (attr_type p) as [ty |]; [| discriminate]. eauto.
  - intros (params & r & texts & -> & Hr & Hps & ->).
    rewrite Hr. cbn [bind].
    rewrite (Forall2_mapM
               (fun t => ty <- attr_type t ;; type_to_ctypes ty ndpointer)
               (l := params) (l' := texts)); [reflexivity |].
    eapply Forall2_impl; [| exact Hps]. intros p text (ty & -> & Hty).
    exact Hty.
Qed.

Lemma type_to_ctypes_callback_witness :
  type_to_ctypes
    (c_ast.FuncDecl
       (Some [c_ast.Typename None
                (c_ast.TypeDecl None [] (c_ast.IdentifierType ["void"]))])
       (tdecl "callback" [] "void"))
    false
  = Ok "CFUNCTYPE(None, None)".
Proof.
  apply (proj2 (proj1 (type_to_ctypes_callback
                         (Some [c_ast.Typename None
                                  (c_ast.TypeDecl None []
                                     (c_ast.IdentifierType ["void"]))])
                         (tdecl "callback" [] "void") false
                         "CFUNCTYPE(None, None)"))).
  exists [c_ast.Typename None
            (c_ast.TypeDecl None [] (c_ast.IdentifierType ["void"]))],
    "None", ["None"].
  repeat split. repeat constructor. eexists. split; reflexivity.
Defined.

(* ================================================================== *)
(** ** What the translator does not look at *)

Lemma unqualified_FuncDecl params restype :
  unqualified (c_ast.FuncDecl (Some params) restype)
  = c_ast.FuncDecl (Some (map unqualified_param params)) (unqualified restype).
Proof. reflexivity. Qed.

Lemma type_to_ctypes_unqualified_aux (type : c_ast.node) :
  (forall ndpointer,
     type_to_ctypes (unqualified type) ndpointer
     = type_to_ctypes type ndpointer) /\
  (forall ty ndpointer, attr_type type = Ok ty ->
     type_to_ctypes (unqualified ty) ndpointer = type_to_ctypes ty ndpointer).
Proof.
  induction type using c_ast.node_ind';
    (split; [intros ndpointer | intros ty ndpointer Hty]);
    try (simpl in Hty; discriminate);
    try (injection Hty as <-; apply (proj1 IHtype));
    try reflexivity.
  - (* PtrDecl *)
    destruct type; try reflexivity.
    + destruct type; reflexivity.
    + transitivity
        (type_to_ctypes (unqualified (c_ast.FuncDecl args type)) ndpointer);
        [destruct args; reflexivity |].
      rewrite (type_to_ctypes_PtrDecl_FuncDecl q). apply (proj1 IHtype).
  - (* ArrayDecl *)
    cbn [unqualified type_to_ctypes].
    destruct d as [[ty size | | |] |]; try reflexivity.
    rewrite (proj1 IHtype). reflexivity.
  - (* FuncDecl *)
    destruct a as [params |].
    + rewrite unqualified_FuncDecl, !type_to_ctypes_FuncDecl.
      unfold funcdecl_to_ctypes. cbn [attr_type attr_args_params bind].
      rewrite (proj1 IHtype). f_equal.
      simpl in H. clear - H.
      induction H as [| p params Hp _ IH]; [reflexivity |].
      cbn [map mapM]. rewrite IH. f_equal.
      destruct p; try reflexivity; cbn [unqualified_param attr_type bind];
        apply (proj2 Hp); reflexivity.
    + change (unqualified (c_ast.FuncDecl None type))
        with (c_ast.FuncDecl None (unqualified type)).
      rewrite !type_to_ctypes_FuncDecl.
      unfold funcdecl_to_ctypes. cbn [attr_type attr_args_params bind].
      rewrite (proj1 IHtype). reflexivity.
Qed.

(** X13. The translation looks neither at the qualifiers ([const],
    [volatile]) of a type, nor at the names its declarators carry, nor at
    the names of the parameters of a function type: a type and the same
    type without them translate alike, and fail alike. *)
Theorem type_to_ctypes_unqualified (type : c_ast.node) (ndpointer : bool) :
  type_to_ctypes (unqualified type) ndpointer = type_to_ctypes type ndpointer.
Proof. apply type_to_ctypes_unqualified_aux. Qed.

(* ================================================================== *)
(** ** The writers *)

Lemma string_append_assoc (s1 s2 s3 : string) :
  (s1 ++ s2) ++ s3 = s1 ++ (s2 ++ s3).
Proof. induction s1 as [| c s1 IH]; simpl; [reflexivity | now rewrite IH]. Qed.

Lemma string_append_nil_r (s : string) : s ++ EmptyString = s.
Proof. induction s as [| c s IH]; simpl; [reflexivity | now rewrite IH]. Qed.

Lemma appends_write (s : string) : appends (write s).
Proof. intros file. reflexivity. Qed.

Lemma appends_eval {A : Type} (r : result A) : appends (eval r).
Proof. intros file. unfold eval. simpl. now rewrite string_append_nil_r. Qed.

Lemma appends_bindW {A B : Type} (m : W A) (k : A -> W B) :
  appends m -> (forall a, appends (k a)) -> appends (bindW m k).
Proof.
  intros Hm Hk file. unfold bindW. rewrite (Hm file).
  destruct (m EmptyString) as [text [a | e]]; simpl.
  - rewrite (Hk a (file ++ text)), (Hk a text). simpl.
    now rewrite string_append_assoc.
  - reflexivity.
Qed.

Lemma appends_forW {A : Type} (l : list A) (body : A -> W unit) :
  (forall x, appends (body x)) -> appends (forW l body).
Proof.
  intros Hb. induction l as [| x l IH]; simpl.
  - apply appends_eval.
  - apply appends_bindW; [apply Hb | intros _; exact IH].
Qed.

Lemma appends_generate_enums enums : appends (generate_enums enums).
Proof.
  apply appends_forW. intros enum.
  apply appends_bindW; [apply appends_write | intros _].
  apply appends_forW. intros [name value]. apply appends_write.
Qed.

Lemma appends_generate_structs structs : appends (generate_structs structs).
Proof.
  apply appends_forW. intros struct.
  apply appends_bindW; [apply appends_write | intros _].
  destruct (List.length (Struct.members struct) =? 0)%nat;
    [apply appends_write |].
  apply appends_bindW; [apply appends_write | intros _].
  apply appends_bindW; [| intros _; apply appends_write].
  apply appends_forW. intros [name type].
  apply appends_bindW; [apply appends_eval | intros ty; apply appends_write].
Qed.

Lemma appends_generate_functions functions :
  appends (generate_functions functions).
Proof.
  apply appends_bindW; [apply appends_write | intros _].
  apply appends_bindW; [apply appends_write | intros _].
  apply appends_forW. intros function.
  apply appends_bindW; [apply appends_write | intros _].
  apply appends_bindW; [apply appends_eval | intros args].
  apply appends_bindW; [apply appends_write | intros _].
  apply appends_bindW; [apply appends_write | intros _].
  apply appends_bindW; [apply appends_eval | intros restype].
  apply appends_write.
Qed.

Lemma appends_write_declarations data : appends (write_declarations data).
Proof.
  apply appends_bindW; [apply appends_write | intros _].
  apply appends_bindW;
    [apply appends_forW; intros [name value]; apply appends_write | intros _].
  apply appends_bindW; [apply appends_write | intros _].
  apply appends_bindW; [| intros _].
  { apply appends_forW. intros [name c_type].
    apply appends_bindW; [apply appends_eval | intros ty; apply appends_write]. }
  apply appends_bindW; [apply appends_generate_enums | intros _].
  apply appends_bindW; [apply appends_generate_structs | intros _].
  apply appends_generate_functions.
Qed.

Lemma snd_bindW {A B : Type} (m : W A) (k : A -> W B) (file : string) :
  appends m -> (forall a, appends (k a)) ->
  snd (bindW m k file)
  = (a <- snd (m EmptyString) ;; snd (k a EmptyString)).
Proof.
  intros Hm Hk. unfold bindW. rewrite (Hm file).
  destruct (m EmptyString) as [text [a | e]]; simpl; [| reflexivity].
  rewrite (Hk a (file ++ text)). reflexivity.
Qed.

Lemma snd_forW {A : Type} (l : list A) (body : A -> W unit) (file : string) :
  (forall x, appends (body x)) ->
  snd (forW l body file) = all_ok (fun x => snd (body x EmptyString)) l.
Proof.
  intros Hb. revert file. unfold all_ok.
  induction l as [| x l IH]; intros file; simpl; [reflexivity |].
  rewrite snd_bindW; [| apply Hb | intros _; apply appends_forW; exact Hb].
  destruct (snd (body x EmptyString)) as [[] | e]; simpl; [| reflexivity].
  rewrite IH.
  destruct (mapM (fun x0 => snd (body x0 EmptyString)) l); reflexivity.
Qed.

Lemma all_ok_ext {A B C : Type} (f : A -> result B) (g : A -> result C)
  (l : list A) :
  (forall x, In x l -> (_ <- f x ;; Ok tt) = (_ <- g x ;; Ok tt)) ->
  all_ok f l = all_ok g l.
Proof.
  unfold all_ok. induction l as [| x l IH]; intros H; simpl; [reflexivity |].
  specialize (IH (fun y Hy => H y (or_intror Hy))).
  specialize (H x (or_introl eq_refl)).
  destruct (f x), (g x); simpl in *; try discriminate; try congruence.
  destruct (mapM f l), (mapM g l); simpl in *; congruence.
Qed.

Lemma all_ok_Ok {A B : Type} (f : A -> result B) (l : list A) :
  (forall x, In x l -> exists b, f x = Ok b) -> all_ok f l = Ok tt.
Proof.
  unfold all_ok. induction l as [| x l IH]; intros H; simpl; [reflexivity |].
  destruct (H x (or_introl eq_refl)) as [b ->]. simpl.
  specialize (IH (fun y Hy => H y (or_intror Hy))).
  destruct (mapM f l); simpl in *; [reflexivity | discriminate].
Qed.

Lemma all_ok_nested {A B : Type} (f : A -> result B) (l : list A) :
  (_ <- all_ok f l ;; Ok tt) = all_ok f l.
Proof. unfold all_ok. destruct (mapM f l); reflexivity. Qed.

Lemma snd_generate_enums (enums : list Enum.t) (file : string) :
  snd (generate_enums enums file) = Ok tt.
Proof.
  unfold generate_enums. rewrite snd_forW.
  - apply all_ok_Ok. intros enum _. exists tt.
    rewrite snd_bindW; [| apply appends_write |].
    + simpl. rewrite snd_forW; [| intros [name value]; apply appends_write].
      apply all_ok_Ok. intros [name value] _. exists tt. reflexivity.
    + intros _. apply appends_forW. intros [name value]. apply appends_write.
  - intros enum.
    apply appends_bindW; [apply appends_write | intros _].
    apply appends_forW. intros [name value]. apply appends_write.
Qed.

Lemma appends_write_member member : appends (write_member member).
Proof.
  destruct member as [name type].
  apply appends_bindW; [apply appends_eval | intros ty; apply appends_write].
Qed.

Lemma appends_write_struct struct : appends (write_struct struct).
Proof.
  apply appends_bindW; [apply appends_write | intros _].
  destruct (List.length (Struct.members struct) =? 0)%nat;
    [apply appends_write |].
  apply appends_bindW; [apply appends_write | intros _].
  apply appends_bindW; [| intros _; apply appends_write].
  apply appends_forW. exact appends_write_member.
Qed.

Lemma appends_write_function function : appends (write_function function).
Proof.
  apply appends_bindW; [apply appends_write | intros _].
  apply appends_bindW; [apply appends_eval | intros args].
  apply appends_bindW; [apply appends_write | intros _].
  apply appends_bindW; [apply appends_write | intros _].
  apply appends_bindW; [apply appends_eval | intros restype].
  apply appends_write.
Qed.

Lemma appends_write_alias alias : appends (write_alias alias).
Proof.
  destruct alias as [name c_type].
  apply appends_bindW; [apply appends_eval | intros ty; apply appends_write].
Qed.

Lemma snd_write_member member file :
  snd (write_member member file)
  = (_ <- type_to_ctypes (snd member) true ;; Ok tt).
Proof.
  destruct member as [name type]. unfold write_member.
  rewrite snd_bindW; [| apply appends_eval | intros ty; apply appends_write].
  reflexivity.
Qed.

Lemma snd_write_alias alias file :
  snd (write_alias alias file)
  = (_ <- type_to_ctypes (snd alias) false ;; Ok tt).
Proof.
  destruct alias as [name type]. unfold write_alias.
  rewrite snd_bindW; [| apply appends_eval | intros ty; apply appends_write].
  reflexivity.
Qed.

Lemma snd_write_struct struct file :
  snd (write_struct struct file)
  = all_ok (fun member => type_to_ctypes (snd member) true)
      (Struct.members struct).
Proof.
  unfold write_struct.
  rewrite snd_bindW; [| apply appends_write |].
  - cbn [write snd bind].
    destruct (Struct.members struct) as [| m ms] eqn:Em; [reflexivity |].
    cbn [List.length Nat.eqb].
    rewrite snd_bindW;
      [| apply appends_write
       | intros _; apply appends_bindW;
         [apply appends_forW; exact appends_write_member
         | intros _; apply appends_write]].
    cbn [write snd bind].
    rewrite snd_bindW;
      [| apply appends_forW; exact appends_write_member
       | intros _; apply appends_write].
    rewrite snd_forW; [| exact appends_write_member].
    cbn [write snd]. rewrite all_ok_nested.
    apply all_ok_ext. intros member _. rewrite snd_write_member.
    destruct (type_to_ctypes (snd member) true); reflexivity.
  - intros _.
    destruct (List.length (Struct.members struct) =? 0)%nat;
      [apply appends_write |].
    apply appends_bindW; [apply appends_write | intros _].
    apply appends_bindW; [| intros _; apply appends_write].
    apply appends_forW. exact appends_write_member.
Qed.

Lemma snd_write_function function file :
  snd (write_function function file)
  = (_ <- function_argtypes function ;;
     _ <- function_restype function ;; Ok tt).
Proof.
  unfold write_function.
  rewrite snd_bindW; [| apply appends_write |].
  - cbn [write snd bind].
    rewrite snd_bindW; [| apply appends_eval |].
    + cbn [eval snd].
      destruct (function_argtypes function) as [args | e]; cbn [bind];
        [| reflexivity].
      rewrite snd_bindW; [| apply appends_write |].
      * cbn [write snd bind].
        rewrite snd_bindW; [| apply appends_write |].
        -- cbn [write snd bind].
           rewrite snd_bindW;
             [| apply appends_eval | intros r; apply appends_write].
           cbn [eval snd].
           destruct (function_restype function); reflexivity.
        -- intros _. apply appends_bindW;
             [apply appends_eval | intros r; apply appends_write].
      * intros _. apply appends_bindW; [apply appends_write | intros _].
        apply appends_bindW;
          [apply appends_eval | intros r; apply appends_write].
    + intros args. apply appends_bindW; [apply appends_write | intros _].
      apply appends_bindW; [apply appends_write | intros _].
      apply appends_bindW;
        [apply appends_eval | intros r; apply appends_write].
  - intros _. apply appends_bindW; [apply appends_eval | intros args].
    apply appends_bindW; [apply appends_write | intros _].
    apply appends_bindW; [apply appends_write | intros _].
    apply appends_bindW;
      [apply appends_eval | intros r; apply appends_write].
Qed.

Lemma snd_generate_structs (structs : list Struct.t) (file : string) :
  snd (generate_structs structs file)
  = all_ok (fun struct =>
              all_ok (fun member => type_to_ctypes (snd member) true)
                (Struct.members struct))
      structs.
Proof.
  change (generate_structs structs) with (forW structs write_struct).
  rewrite snd_forW; [| exact appends_write_struct].
  apply all_ok_ext. intros struct _. rewrite snd_write_struct. reflexivity.
Qed.

Lemma snd_generate_functions (functions : list Function.t) (file : string) :
  snd (generate_functions functions file)
  = all_ok (fun function =>
              _ <- function_argtypes function ;; function_restype function)
      functions.
Proof.
  change (generate_functions functions)
    with (write (nl ++ nl ++ "def setup_functions(lib):" ++ nl) ;;;
          write ("    from .status import _check_rascal_status_t" ++ nl) ;;;
          forW functions write_function).
  rewrite snd_bindW; [| apply appends_write |].
  - cbn [write snd bind].
    rewrite snd_bindW;
      [| apply appends_write
       | intros _; apply appends_forW; exact appends_write_function].
    cbn [write snd bind].
    rewrite snd_forW; [| exact appends_write_function].
    apply all_ok_ext. intros function _. rewrite snd_write_function.
    destruct (function_argtypes function); cbn [bind]; [| reflexivity].
    destruct (function_restype function); reflexivity.
  - intros _. apply appends_bindW; [apply appends_write | intros _].
    apply appends_forW. exact appends_write_function.
Qed.

Lemma all_ok_iff {A B : Type} (f : A -> result B) (l : list A) :
  all_ok f l = Ok tt <-> Forall (fun x => exists b, f x = Ok b) l.
Proof.
  split.
  - unfold all_ok. induction l as [| x l IH]; simpl; intros H; [constructor |].
    destruct (f x) as [b | e] eqn:E; simpl in H; [| discriminate].
    constructor; [eauto |]. apply IH.
    destruct (mapM f l); simpl in *; [reflexivity | discriminate].
  - intros H. apply all_ok_Ok. apply Forall_forall. exact H.
Qed.

(** X16. Writing the structs ends as the first member, in the order of
    the structs and of their members, whose type does not translate as a
    field does, and without an exception if there is none: it succeeds if
    and only if every member of every struct translates. *)
Theorem generate_structs_outcome (structs : list Struct.t) (file : string) :
  snd (generate_structs structs file)
  = all_ok (fun struct =>
              all_ok (fun member => type_to_ctypes (snd member) true)
                (Struct.members struct))
      structs /\
  (snd (generate_structs structs file) = Ok tt <->
   Forall (fun struct =>
             Forall (fun member =>
                       exists s, type_to_ctypes (snd member) true = Ok s)
               (Struct.members struct))
     structs).
Proof.
  split; [apply snd_generate_structs |].
  rewrite snd_generate_structs, all_ok_iff.
  split; intros H; eapply Forall_impl; try exact H; intros struct Hs.
  - destruct Hs as [[] Hs]. apply all_ok_iff. exact Hs.
  - exists tt. apply all_ok_iff. exact Hs.
Qed.

Lemma function_argtypes_Ok_iff (function : Function.t) :
  (exists args, function_argtypes function = Ok args) <->
  Forall (fun arg => exists s, type_to_ctypes arg false = Ok s)
    (Function.args function).
Proof.
  unfold function_argtypes.
  rewrite <- (all_ok_iff (fun arg => type_to_ctypes arg false)).
  unfold all_ok.
  destruct (mapM (fun arg => type_to_ctypes arg false)
              (Function.args function)) as [args | e]; simpl.
  - split; [reflexivity |]. intros _.
    destruct (list_string_eqb args ["None"]); eauto.
  - split; [intros [args H] |]; discriminate.
Qed.

Lemma function_restype_Ok_iff (function : Function.t) :
  (exists r, function_restype function = Ok r) <->
  (exists s, type_to_ctypes (Function.restype function) false = Ok s).
Proof.
  unfold function_restype.
  destruct (type_to_ctypes (Function.restype function) false) as [s | e];
    simpl.
  - split; [eauto |]. intros _.
    destruct (String.eqb s "rascal_status_t"); eauto.
  - split; intros [x H]; discriminate.
Qed.

(** X17. Writing the functions ends as the first parameter type, then
    return type, in the order of the functions, that does not translate;
    it succeeds if and only if, for every function, the type of every
    parameter and the return type translate. *)
Theorem generate_functions_outcome
  (functions : list Function.t) (file : string) :
  snd (generate_functions functions file)
  = all_ok (fun function =>
              _ <- function_argtypes function ;; function_restype function)
      functions /\
  (snd (generate_functions functions file) = Ok tt <->
   Forall (fun function =>
             Forall (fun arg => exists s, type_to_ctypes arg false = Ok s)
               (Function.args function) /\
             exists s, type_to_ctypes (Function.restype function) false = Ok s)
     functions).
Proof.
  split; [apply snd_generate_functions |].
  rewrite snd_generate_functions, all_ok_iff.
  split; intros H; eapply Forall_impl; try exact H; intros function Hf.
  - destruct Hf as [r Hf].
    destruct (function_argtypes function) as [args |] eqn:Ea;
      [| discriminate].
    split.
    + apply function_argtypes_Ok_iff. eauto.
    + apply function_restype_Ok_iff. eauto.
  - destruct Hf as [Ha Hr].
    apply function_argtypes_Ok_iff in Ha. destruct Ha as [args ->].
    apply function_restype_Ok_iff in Hr. destruct Hr as [r Hr].
    exists r. exact Hr.
Qed.

Lemma snd_write_declarations (data : AstVisitor) (file : string) :
  snd (write_declarations data file) = translation_outcome data.
Proof.
  change (write_declarations data)
    with (write prelude ;;;
          forW (defines data) write_define ;;;
          write (nl ++ nl) ;;;
          forW (types data) write_alias ;;;
          generate_enums (enums data) ;;;
          generate_structs (structs data) ;;;
          generate_functions (functions data)).
  assert (A7 := appends_generate_functions (functions data)).
  assert (A6 : appends (generate_structs (structs data) ;;;
                        generate_functions (functions data)))
    by (apply appends_bindW; [apply appends_generate_structs | intros _; exact A7]).
  assert (A5 : appends (generate_enums (enums data) ;;;
                        generate_structs (structs data) ;;;
                        generate_functions (functions data)))
    by (apply appends_bindW; [apply appends_generate_enums | intros _; exact A6]).
  assert (A4 : appends (forW (types data) write_alias ;;;
                        generate_enums (enums data) ;;;
                        generate_structs (structs data) ;;;
                        generate_functions (functions data)))
    by (apply appends_bindW;
        [apply appends_forW; exact appends_write_alias | intros _; exact A5]).
  assert (A3 : appends (write (nl ++ nl) ;;;
                        forW (types data) write_alias ;;;
                        generate_enums (enums data) ;;;
                        generate_structs (structs data) ;;;
                        generate_functions (functions data)))
    by (apply appends_bindW; [apply appends_write | intros _; exact A4]).
  assert (Ad : forall d, appends (write_define d))
    by (intros [name value]; apply appends_write).
  rewrite snd_bindW;
    [| apply appends_write
     | intros _; apply appends_bindW;
       [apply appends_forW; exact Ad | intros _; exact A3]].
  cbn [write snd bind].
  rewrite snd_bindW;
    [| apply appends_forW; exact Ad | intros _; exact A3].
  rewrite snd_forW; [| exact Ad].
  rewrite (all_ok_Ok (fun x => snd (write_define x EmptyString)));
    [| intros [name value] _; exists tt; reflexivity].
  cbn [bind].
  rewrite snd_bindW; [| apply appends_write | intros _; exact A4].
  cbn [write snd bind].
  rewrite snd_bindW;
    [| apply appends_forW; exact appends_write_alias | intros _; exact A5].
  rewrite snd_forW; [| exact appends_write_alias].
  unfold translation_outcome.
  rewrite (all_ok_ext (fun x => snd (write_alias x EmptyString))
             (fun alias => type_to_ctypes (snd alias) false));
    [| intros alias _; rewrite snd_write_alias;
       destruct (type_to_ctypes (snd alias) false); reflexivity].
  destruct (all_ok (fun alias => type_to_ctypes (snd alias) false)
              (types data)) as [[] | e]; cbn [bind]; [| reflexivity].
  rewrite snd_bindW; [| apply appends_generate_enums | intros _; exact A6].
  rewrite snd_generate_enums. cbn [bind].
  rewrite snd_bindW; [| apply appends_generate_structs | intros _; exact A7].
  rewrite snd_generate_structs.
  destruct (all_ok
              (fun struct =>
                 all_ok (fun member => type_to_ctypes (snd member) true)
                   (Struct.members struct))
              (structs data)) as [[] | e]; cbn [bind]; [| reflexivity].
  apply snd_generate_functions.
Qed.

(** X15. Writing the enums never raises. The run, once the header is
    parsed, ends as the translations decide: as the first alias, in their
    order, then the first member of a struct, then the first parameter or
    return type of a function that does not translate; and a run whose
    parse raises ends with that exception and opens no file. *)
Theorem generate_declarations_outcome
  (ast : c_ast.node) (header : list string) :
  (forall enums file, snd (generate_enums enums file) = Ok tt) /\
  (forall data file,
     snd (write_declarations data file) = translation_outcome data) /\
  snd (generate_declarations ast header)
  = (data <- parse ast header ;; translation_outcome data) /\
  (fst (generate_declarations ast header) = None <->
   exists e, parse ast header = Err e).
Proof.
  split; [apply snd_generate_enums |].
  split; [apply snd_write_declarations |].
  unfold generate_declarations.
  destruct (parse ast header) as [data | e]; simpl.
  - pose proof (snd_write_declarations data EmptyString) as H.
    destruct (write_declarations data EmptyString) as [file r]. simpl in *.
    split; [exact H |]. split; [discriminate | intros [e He]; discriminate].
  - split; [reflexivity |]. split; eauto.
Qed.

Lemma forW_write_define (defines : list (string * string)) (file : string) :
  forW defines write_define file = (file ++ defines_text defines, Ok tt).
Proof.
  revert file. unfold defines_text.
  induction defines as [| [name value] defines IH]; intros file.
  - simpl. unfold eval. now rewrite string_append_nil_r.
  - cbn [forW map concat]. unfold bindW. cbn [write_define write].
    rewrite IH. rewrite string_append_assoc.
    destruct defines as [| d defines']; [| reflexivity].
    simpl. now rewrite !string_append_nil_r.
Qed.

(** X18. Once the header is parsed the output file exists whatever comes
    next: it starts with the fixed prelude, followed by one line for each
    macro constant, in order, and a blank separation, also when a type
    that does not translate stops the run afterwards, in which case the
    file is left with what was written up to there. *)
Theorem generate_declarations_partial
  (ast : c_ast.node) (header : list string) (data : AstVisitor) :
  parse ast header = Ok data ->
  exists rest,
    generate_declarations ast header
    = (Some (prelude ++ defines_text (defines data) ++ nl ++ nl ++ rest),
       translation_outcome data).
Proof.
  intros Hp. unfold generate_declarations. rewrite Hp.
  pose proof (snd_write_declarations data EmptyString) as Hs.
  assert (A : appends (forW (types data) write_alias ;;;
                       generate_enums (enums data) ;;;
                       generate_structs (structs data) ;;;
                       generate_functions (functions data))).
  { apply appends_bindW;
      [apply appends_forW; exact appends_write_alias | intros _].
    apply appends_bindW; [apply appends_generate_enums | intros _].
    apply appends_bindW; [apply appends_generate_structs | intros _].
    apply appends_generate_functions. }
  assert (E : write_declarations data EmptyString
              = (forW (types data) write_alias ;;;
                 generate_enums (enums data) ;;;
                 generate_structs (structs data) ;;;
                 generate_functions (functions data))
                  ((prelude ++ defines_text (defines data)) ++ nl ++ nl)).
  { change (write_declarations data)
      with (write prelude ;;;
            forW (defines data) write_define ;;;
            write (nl ++ nl) ;;;
            forW (types data) write_alias ;;;
            generate_enums (enums data) ;;;
            generate_structs (structs data) ;;;
            generate_functions (functions data)).
    unfold bindW at 1. cbn [write].
    unfold bindW at 1. rewrite forW_write_define.
    unfold bindW at 1. cbn [write]. reflexivity. }
  rewrite E in Hs |- *. rewrite (A _) in Hs |- *. cbn [snd] in Hs.
  eexists. rewrite Hs. f_equal. f_equal.
  rewrite !string_append_assoc. reflexivity.
Qed.

Lemma generate_declarations_partial_witness :
  exists rest,
    generate_declarations
      (c_ast.FileAST
         [c_ast.Typedef "rascal_count_t"
            (c_ast.TypeDecl (Some "rascal_count_t") []
               (c_ast.Union (Some "rascal_count") None))])
      ["#define RASCAL_SUCCESS 0" ++ nl]
    = (Some (prelude ++ defines_text [("RASCAL_SUCCESS", "0")] ++ nl ++ nl
               ++ rest),
       Err (Exception "Unknown type")).
Proof.
  apply (@generate_declarations_partial
           (c_ast.FileAST
              [c_ast.Typedef "rascal_count_t"
                 (c_ast.TypeDecl (Some "rascal_count_t") []
                    (c_ast.Union (Some "rascal_count") None))])
           ["#define RASCAL_SUCCESS 0" ++ nl]
           (set_defines
              (set_types AstVisitor_init
                 [("rascal_count_t", c_ast.Union (Some "rascal_count") None)])
              [("RASCAL_SUCCESS", "0")])).
  reflexivity.
Defined.
